(** * One-time passcode issuance and verification (server.js)

    A shallow embedding of the OTP part of [server.js]: the helpers
    [generateOTP] and [formatPhoneNumber], and the three request handlers
    [POST /api/send-email-otp], [POST /api/send-phone-otp] and
    [POST /api/verify-otp], over an explicit model of the [otp_codes] table.

    Conventions.
    - A JavaScript string is the list of its UTF-16 code units.
    - A [Date] is its epoch value in milliseconds.
    - The Supabase query builders resolve to [{data, error}] and do not
      reject (the source never asks for [throwOnError]); whether a statement
      fails is an input of the handler, and a failed statement leaves the
      table as it was.
    - Every handler returns its HTTP response and threads a [world]: the
      table, the id sequence of the table, and the trace of the effects
      performed (statements sent to the store, messages handed to SendGrid
      or Twilio).
    - The handlers that keep accounts ([POST /api/signup],
      [POST /api/partners], [POST /api/users/:userId/mt5-logins]) read
      JSON values of any type from the body; they are embedded over the
      answers of the store, and return their response with the statements
      they sent, in order. *)

From Stdlib Require Import List ZArith NArith Bool Lia String Ascii.
From Stdlib Require Import QArith Qround.
Import ListNotations.
Close Scope Q_scope.

Set Implicit Arguments.

(* ================================================================== *)
(** ** JavaScript strings                                              *)
(* ================================================================== *)

Module Js.

Definition char := N.
Definition jsstring := list char.

(** A string literal of the source, as code units. *)
Definition lit (s : string) : jsstring :=
  map N_of_ascii (list_ascii_of_string s).

Fixpoint str_eqb (a b : jsstring) : bool :=
  match a, b with
  | [], [] => true
  | x :: a', y :: b' => N.eqb x y && str_eqb a' b'
  | _, _ => false
  end.

(** [s.startsWith(p)] *)
Fixpoint startsWith (s p : jsstring) : bool :=
  match p, s with
  | [], _ => true
  | y :: p', x :: s' => N.eqb x y && startsWith s' p'
  | _ :: _, [] => false
  end.

(** The character classes of the source's regular expressions.  [\d] is
    ASCII only in JavaScript; [\s] is WhiteSpace and LineTerminator. *)
Definition is_digit (c : char) : bool := ((48 <=? c) && (c <=? 57))%N.

Definition is_space (c : char) : bool :=
  ((9 <=? c) && (c <=? 13) || (c =? 32) || (c =? 160) || (c =? 5760)
   || (8192 <=? c) && (c <=? 8202) || (c =? 8232) || (c =? 8233)
   || (c =? 8239) || (c =? 8287) || (c =? 12288) || (c =? 65279))%N.

Definition ch_plus : char := 43%N.
Definition ch_dot : char := 46%N.
Definition ch_at : char := 64%N.
Definition ch_minus : char := 45%N.

(** *** Regular expressions, matched by derivatives *)

Inductive regex : Type :=
| Never : regex
| Empty : regex
| Class : (char -> bool) -> regex
| Cat : regex -> regex -> regex
| Or : regex -> regex -> regex
| Star : regex -> regex.

(** [r+] *)
Definition Plus (r : regex) : regex := Cat r (Star r).
Definition Chr (c : char) : regex := Class (N.eqb c).

Inductive Matches : regex -> jsstring -> Prop :=
| MEmpty : Matches Empty []
| MClass : forall p c, p c = true -> Matches (Class p) [c]
| MCat : forall r1 r2 s1 s2,
    Matches r1 s1 -> Matches r2 s2 -> Matches (Cat r1 r2) (s1 ++ s2)
| MOrL : forall r1 r2 s, Matches r1 s -> Matches (Or r1 r2) s
| MOrR : forall r1 r2 s, Matches r2 s -> Matches (Or r1 r2) s
| MStarNil : forall r, Matches (Star r) []
| MStarApp : forall r s1 s2,
    Matches r s1 -> Matches (Star r) s2 -> Matches (Star r) (s1 ++ s2).

Fixpoint nullable (r : regex) : bool :=
  match r with
  | Never => false
  | Empty => true
  | Class _ => false
  | Cat r1 r2 => nullable r1 && nullable r2
  | Or r1 r2 => nullable r1 || nullable r2
  | Star _ => true
  end.

Fixpoint deriv (c : char) (r : regex) : regex :=
  match r with
  | Never => Never
  | Empty => Never
  | Class p => if p c then Empty else Never
  | Cat r1 r2 =>
      if nullable r1
      then Or (Cat (deriv c r1) r2) (deriv c r2)
      else Cat (deriv c r1) r2
  | Or r1 r2 => Or (deriv c r1) (deriv c r2)
  | Star r1 => Cat (deriv c r1) (Star r1)
  end.

(** [/^r$/.test(s)]: the whole of [s] is matched by [r] (no [m] flag, so
    [^] and [$] are the two ends of the input). *)
Fixpoint test (r : regex) (s : jsstring) : bool :=
  match s with
  | [] => nullable r
  | c :: s' => test (deriv c r) s'
  end.

(** [s.replace(/[cls]/g, '')] for a one-character class: every code unit of
    the class is dropped, the others are kept in order. *)
Definition replace_class_g (cls : char -> bool) (s : jsstring) : jsstring :=
  filter (fun c => negb (cls c)) s.

(** *** [Number.prototype.toString] on integers *)

Fixpoint digits_acc (fuel : nat) (n : N) (acc : jsstring) : jsstring :=
  match fuel with
  | O => acc
  | S fuel' =>
      let acc' := (48 + n mod 10)%N :: acc in
      if (n / 10 =? 0)%N then acc' else digits_acc fuel' (n / 10)%N acc'
  end.

Definition N_toString (n : N) : jsstring :=
  digits_acc (S (N.to_nat (N.log2 n))) n [].

Definition Z_toString (z : Z) : jsstring :=
  match z with
  | Zneg p => ch_minus :: N_toString (Npos p)
  | _ => N_toString (Z.to_N z)
  end.

(** JavaScript truthiness of a body field that is a string or absent. *)
Definition truthy (o : option jsstring) : bool :=
  match o with
  | Some (_ :: _) => true
  | _ => false
  end.

End Js.

(* ================================================================== *)
(** ** The [otp_codes] table                                           *)
(* ================================================================== *)

Module Db.
Import Js.

(** A row of [otp_codes], with the columns the source reads and writes. *)
Record otp_row : Type := {
  id : N;
  email : option jsstring;
  phone : option jsstring;
  otp_code : jsstring;
  type : jsstring;
  expires_at : Z;
  verified : bool;
  attempts : option Z;
  created_at : Z
}.

(** The object given to [.insert([...])]: the columns the handlers set. *)
Record otp_insert : Type := {
  ins_email : option jsstring;
  ins_phone : option jsstring;
  ins_otp_code : jsstring;
  ins_type : jsstring;
  ins_expires_at : Z;
  ins_verified : bool;
  ins_attempts : option Z
}.

(** The filters the handlers chain on a query ([.eq], [.gt]); a query is
    the conjunction of its filters. *)
Inductive cond : Type :=
| EqEmail : jsstring -> cond
| EqPhone : jsstring -> cond
| EqType : jsstring -> cond
| EqOtpCode : jsstring -> cond
| EqVerified : bool -> cond
| GtExpiresAt : Z -> cond
| EqId : N -> cond.

(** The objects given to [.update({...})]. *)
Inductive patch : Type :=
| SetVerified : bool -> patch
| SetAttempts : Z -> patch.

Definition opt_str_eqb (o : option jsstring) (v : jsstring) : bool :=
  match o with
  | Some s => str_eqb s v
  | None => false
  end.

Definition holds (c : cond) (r : otp_row) : bool :=
  match c with
  | EqEmail v => opt_str_eqb (email r) v
  | EqPhone v => opt_str_eqb (phone r) v
  | EqType v => str_eqb (type r) v
  | EqOtpCode v => str_eqb (otp_code r) v
  | EqVerified b => Bool.eqb (verified r) b
  | GtExpiresAt t => (t <? expires_at r)%Z
  | EqId n => N.eqb (id r) n
  end.

Definition satisfies (q : list cond) (r : otp_row) : bool :=
  forallb (fun c => holds c r) q.

Definition apply_patch (p : patch) (r : otp_row) : otp_row :=
  match p with
  | SetVerified b =>
      {| id := id r; email := email r; phone := phone r;
         otp_code := otp_code r; type := type r; expires_at := expires_at r;
         verified := b; attempts := attempts r; created_at := created_at r |}
  | SetAttempts n =>
      {| id := id r; email := email r; phone := phone r;
         otp_code := otp_code r; type := type r; expires_at := expires_at r;
         verified := verified r; attempts := Some n;
         created_at := created_at r |}
  end.

(** [update ... where q] *)
Definition update_where (q : list cond) (p : patch) (t : list otp_row)
  : list otp_row :=
  map (fun r => if satisfies q r then apply_patch p r else r) t.

(** [select * ... where q] *)
Definition select_where (q : list cond) (t : list otp_row) : list otp_row :=
  filter (satisfies q) t.

(** [.order('created_at', { ascending: false })].  SQL leaves the order of
    rows with equal [created_at] open; here they stay in table order. *)
Fixpoint insert_desc (r : otp_row) (l : list otp_row) : list otp_row :=
  match l with
  | [] => [r]
  | x :: l' =>
      if (created_at x <=? created_at r)%Z then r :: l
      else x :: insert_desc r l'
  end.

Definition order_created_at_desc (l : list otp_row) : list otp_row :=
  fold_right insert_desc [] l.

(** The first row of a list is one of its most recent rows. *)
Definition head_is_latest (l : list otp_row) : Prop :=
  match l with
  | [] => True
  | h :: t => forall x, In x t -> (created_at x <= created_at h)%Z
  end.

(** [.limit(n)] *)
Definition limit (n : nat) (l : list otp_row) : list otp_row := firstn n l.

(** Modelled from the spec: the declaration of the table [otp_codes] is not
    part of the source.  A record has an issuance time by which lookups are
    ordered ([created_at], which no handler sets: it is the time of the
    insertion, read from the database clock), and [id] identifies the row
    (the next value of the table's sequence). *)
Definition new_row (i : N) (clock : Z) (v : otp_insert) : otp_row :=
  {| id := i; email := ins_email v; phone := ins_phone v;
     otp_code := ins_otp_code v; type := ins_type v;
     expires_at := ins_expires_at v; verified := ins_verified v;
     attempts := ins_attempts v; created_at := clock |}.

End Db.

(* ================================================================== *)
(** ** HTTP responses                                                  *)
(* ================================================================== *)

Module Http.
Import Js.

(** [res.status(status).json({ success, error, message, otp, verified,
    details })]; a key that the source leaves out, or sets to [undefined],
    is [None]. *)
Record response : Type := {
  status : nat;
  success : bool;
  error : option string;
  message : option string;
  otp : option jsstring;
  verified : option bool;
  details : option string
}.

Definition fail (code : nat) (msg : string) : response :=
  {| status := code; success := false; error := Some msg; message := None;
     otp := None; verified := None; details := None |}.

Definition fail_details (code : nat) (msg d : string) : response :=
  {| status := code; success := false; error := Some msg; message := None;
     otp := None; verified := None; details := Some d |}.

Definition sent (msg : string) (code : option jsstring) : response :=
  {| status := 200; success := true; error := None; message := Some msg;
     otp := code; verified := None; details := None |}.

Definition verified_ok (msg : string) : response :=
  {| status := 200; success := true; error := None; message := Some msg;
     otp := None; verified := Some true; details := None |}.

End Http.

(* ================================================================== *)
(** ** The server                                                      *)
(* ================================================================== *)

Module Server.
Import Js.

(** *** Process-wide settings, read once from the environment *)

Record config : Type := {
  NODE_ENV : option jsstring;        (* process.env.NODE_ENV *)
  sendGridApiKey : option jsstring;  (* process.env.SENDGRID_API_KEY *)
  twilioClient : bool;               (* twilioClient !== null *)
  twilioPhoneNumber : option jsstring
}.

(** [process.env.NODE_ENV === v] *)
Definition env_is (cfg : config) (v : string) : bool :=
  match NODE_ENV cfg with
  | Some s => str_eqb s (lit v)
  | None => false
  end.

(** *** Constants *)

Definition OTP_EXPIRY_MINUTES : Z := 10.
Definition MAX_OTP_ATTEMPTS : Z := 5.
Definition OTP_LENGTH : nat := 6.

(** *** The world a handler runs in *)

Inductive effect : Type :=
| DbUpdate : list Db.cond -> Db.patch -> effect
| DbInsert : Db.otp_insert -> effect
| DbSelect : list Db.cond -> effect
| SendGridMail : jsstring -> jsstring -> effect   (* to, code in the body *)
| TwilioSms : jsstring -> jsstring -> effect.     (* to, code in the body *)

Record world : Type := {
  otp_codes : list Db.otp_row;
  next_id : N;
  trace : list effect
}.

Definition M (A : Type) : Type := world -> A * world.

Definition ret {A : Type} (a : A) : M A := fun w => (a, w).

Definition bind {A B : Type} (m : M A) (k : A -> M B) : M B :=
  fun w => let (a, w') := m w in k a w'.

Notation "x <- m ;; k" := (bind m (fun x => k))
  (at level 61, m at next level, right associativity).
Notation "m ;;; k" := (bind m (fun _ => k))
  (at level 61, right associativity).

Definition emit (e : effect) (w : world) : world :=
  {| otp_codes := otp_codes w; next_id := next_id w;
     trace := trace w ++ [e] |}.

Definition set_rows (t : list Db.otp_row) (w : world) : world :=
  {| otp_codes := t; next_id := next_id w; trace := trace w |}.

(** [await supabase.from('otp_codes').update(p).eq(...)...]; the result is
    [true] when [error] is null. *)
Definition db_update (ok : bool) (q : list Db.cond) (p : Db.patch) : M bool :=
  fun w =>
    let w1 := emit (DbUpdate q p) w in
    if ok
    then (true, set_rows (Db.update_where q p (otp_codes w1)) w1)
    else (false, w1).

(** [await supabase.from('otp_codes').insert([v])] *)
Definition db_insert (ok : bool) (clock : Z) (v : Db.otp_insert) : M bool :=
  fun w =>
    let w1 := emit (DbInsert v) w in
    if ok
    then (true, {| otp_codes := otp_codes w1
                                ++ [Db.new_row (next_id w1) clock v];
                   next_id := N.succ (next_id w1); trace := trace w1 |})
    else (false, w1).

(** [await supabase.from('otp_codes').select('*').eq(...)...
      .order('created_at', { ascending: false }).limit(1)];
    [None] stands for a non-null [error] (and null [data]). *)
Definition db_select_latest (ok : bool) (q : list Db.cond)
  : M (option (list Db.otp_row)) :=
  fun w =>
    let w1 := emit (DbSelect q) w in
    if ok
    then (Some (Db.limit 1 (Db.order_created_at_desc
                              (Db.select_where q (otp_codes w1)))), w1)
    else (None, w1).

(** The [fetch] to the SendGrid API; [false] when it throws or the
    response is not [ok]. *)
Definition sendgrid_send (ok : bool) (to code : jsstring) : M bool :=
  fun w => (ok, emit (SendGridMail to code) w).

(** [twilioClient.messages.create]; [Some msg] when it throws an error
    whose [message] is [msg]. *)
Definition twilio_create (outcome : option string) (to code : jsstring)
  : M (option string) :=
  fun w => (outcome, emit (TwilioSms to code) w).

(** *** Dates *)

(** [getMinutes] and [setMinutes] on the epoch value, for a process whose
    local time has a fixed offset from UTC of whole hours. *)
Definition getMinutes (t : Z) : Z := ((t / 60000) mod 60)%Z.
Definition setMinutes (t m : Z) : Z :=
  (t - getMinutes t * 60000 + m * 60000)%Z.

(** *** Helpers of the source *)

(** [Math.floor(100000 + Math.random() * 900000).toString()], where [r] is
    the value of [Math.random()]; the arithmetic is exact. *)
Definition generateOTP (r : Q) : jsstring :=
  Z_toString (Qfloor (100000 + r * 900000)%Q).

(** The class [[^\d+]]. *)
Definition not_digit_or_plus (c : char) : bool :=
  negb (is_digit c || N.eqb c ch_plus).

Definition formatPhoneNumber (phone : jsstring) : jsstring :=
  let cleaned := replace_class_g not_digit_or_plus phone in
  if negb (startsWith cleaned (lit "+"))
  then lit "+1" ++ cleaned
  else cleaned.

(** The class [[^\s@]]. *)
Definition not_space_or_at (c : char) : bool :=
  negb (is_space c || N.eqb c ch_at).

(** [/^[^\s@]+@[^\s@]+\.[^\s@]+$/] *)
Definition emailRegex : regex :=
  Cat (Plus (Class not_space_or_at))
    (Cat (Chr ch_at)
       (Cat (Plus (Class not_space_or_at))
          (Cat (Chr ch_dot) (Plus (Class not_space_or_at))))).

(** [/^\d+$/] *)
Definition digitsRegex : regex := Plus (Class is_digit).

(** *** What the environment decides during one request *)

Record issue_io : Type := {
  now : Z;                 (* new Date() *)
  random : Q;              (* Math.random() *)
  invalidate_ok : bool;    (* the update that retires older codes *)
  insert_ok : bool;        (* the insert of the new code *)
  db_clock : Z;            (* the database clock at the insert *)
  mail_ok : bool;          (* the SendGrid request *)
  sms_error : option string  (* the error thrown by Twilio, if any *)
}.

Record verify_io : Type := {
  v_now : Z;               (* new Date() *)
  lookup_ok : bool;        (* the select of the matching record *)
  recent_ok : bool;        (* the select of the most recent record *)
  bump_ok : bool;          (* the update of attempts *)
  mark_ok : bool           (* the update that sets verified *)
}.

(** *** POST /api/send-email-otp, body [{ email }] *)

(** The [details] of the response to a failed send are those of
    development mode, and the branch that sends them is that of production
    mode: the key is always [undefined] there. *)

Definition send_email_otp (cfg : config) (io : issue_io)
    (email : option jsstring) : M Http.response :=
  match email with
  | None | Some [] => ret (Http.fail 400 "Email is required")
  | Some email =>
      if negb (test emailRegex email)
      then ret (Http.fail 400 "Invalid email format")
      else
        let otp := generateOTP (random io) in
        let expiresAt :=
          setMinutes (now io) (getMinutes (now io) + OTP_EXPIRY_MINUTES) in
        db_update (invalidate_ok io)
          [Db.EqEmail email; Db.EqType (lit "email"); Db.EqVerified false]
          (Db.SetVerified true) ;;;
        dbOk <- db_insert (insert_ok io) (db_clock io)
          {| Db.ins_email := Some email; Db.ins_phone := None;
             Db.ins_otp_code := otp; Db.ins_type := lit "email";
             Db.ins_expires_at := expiresAt; Db.ins_verified := false;
             Db.ins_attempts := Some 0%Z |} ;;
        if negb dbOk
        then ret (Http.fail 500 "Failed to generate verification code")
        else
          failed <-
            (if truthy (sendGridApiKey cfg)
             then
               sentOk <- sendgrid_send (mail_ok io) email otp ;;
               if sentOk then ret None
               else if env_is cfg "production"
               then ret (Some (Http.fail 500
                 "Failed to send verification email. Please try again later."))
               else ret None
             else
               if env_is cfg "production"
               then ret (Some (Http.fail 500 "Email service not configured"))
               else ret None) ;;
          match failed with
          | Some r => ret r
          | None =>
              ret (Http.sent "Verification code sent to your email"
                     (if env_is cfg "development" then Some otp else None))
          end
  end.

(** *** POST /api/send-phone-otp, body [{ phone }] *)

Definition send_phone_otp (cfg : config) (io : issue_io)
    (phone : option jsstring) : M Http.response :=
  match phone with
  | None | Some [] => ret (Http.fail 400 "Phone number is required")
  | Some phone =>
      if negb (twilioClient cfg) || negb (truthy (twilioPhoneNumber cfg))
      then ret (Http.fail 500
                  "SMS service not configured. Please contact support.")
      else
        let formattedPhone := formatPhoneNumber phone in
        let otp := generateOTP (random io) in
        let expiresAt :=
          setMinutes (now io) (getMinutes (now io) + OTP_EXPIRY_MINUTES) in
        db_update (invalidate_ok io)
          [Db.EqPhone formattedPhone; Db.EqType (lit "phone");
           Db.EqVerified false]
          (Db.SetVerified true) ;;;
        dbOk <- db_insert (insert_ok io) (db_clock io)
          {| Db.ins_email := None; Db.ins_phone := Some formattedPhone;
             Db.ins_otp_code := otp; Db.ins_type := lit "phone";
             Db.ins_expires_at := expiresAt; Db.ins_verified := false;
             Db.ins_attempts := Some 0%Z |} ;;
        if negb dbOk
        then ret (Http.fail 500 "Failed to generate verification code")
        else
          smsError <- twilio_create (sms_error io) formattedPhone otp ;;
          match smsError with
          | Some msg =>
              ret (Http.fail_details 500
                "Failed to send SMS. Please check your phone number and try again."
                msg)
          | None =>
              ret (Http.sent "Verification code sent to your phone"
                     (if env_is cfg "development" then Some otp else None))
          end
  end.

(** *** POST /api/verify-otp, body [{ email, phone, otp, type }] *)

(** Each field of the body is a string, or is absent ([None]). *)

Record verify_body : Type := {
  body_email : option jsstring;
  body_phone : option jsstring;
  body_otp : option jsstring;
  body_type : option jsstring
}.

(** A value spliced into a filter: supabase-js writes it with a template
    string, so [undefined] and [null] are sent as those words. *)
Definition or_undefined (o : option jsstring) : jsstring :=
  match o with Some s => s | None => lit "undefined" end.
Definition or_null (o : option jsstring) : jsstring :=
  match o with Some s => s | None => lit "null" end.

(** [otpRecord.attempts >= MAX_OTP_ATTEMPTS]; [null >= 5] is false. *)
Definition attempts_exceeded (a : option Z) : bool :=
  match a with
  | Some n => (MAX_OTP_ATTEMPTS <=? n)%Z
  | None => false
  end.

(** [(recentOtp[0].attempts || 0) + 1] *)
Definition currentAttempts (a : option Z) : Z :=
  match a with
  | Some n => if (n =? 0)%Z then 0 + 1 else n + 1
  | None => 0 + 1
  end.

(** The destination filter chosen by [type === 'email']. *)
Definition dest_cond (type : jsstring) (email formattedPhone : option jsstring)
  : Db.cond :=
  if str_eqb type (lit "email")
  then Db.EqEmail (or_undefined email)
  else Db.EqPhone (or_null formattedPhone).

(** From "Find the OTP record" to the end of the handler: the lookup of
    the matching record, the count of a failed attempt, the attempt limit
    and the transition to verified.  [dest] is the destination filter. *)
Definition find_and_verify (io : verify_io) (type otp : jsstring)
    (dest : Db.cond) : M Http.response :=
  otpRecords <- db_select_latest (lookup_ok io)
    [Db.EqType type; Db.EqOtpCode otp; Db.EqVerified false;
     Db.GtExpiresAt (v_now io); dest] ;;
  match otpRecords with
  | None => ret (Http.fail 500 "Failed to verify code")
  | Some [] =>
      recentOtp <- db_select_latest (recent_ok io)
        [Db.EqType type; Db.EqVerified false; dest] ;;
      match recentOtp with
      | Some (recent :: _) =>
          db_update (bump_ok io) [Db.EqId (Db.id recent)]
            (Db.SetAttempts (currentAttempts (Db.attempts recent)))
          ;;; ret tt
      | _ => ret tt
      end ;;;
      ret (Http.fail 400 "Invalid or expired verification code")
  | Some (otpRecord :: _) =>
      if attempts_exceeded (Db.attempts otpRecord)
      then ret (Http.fail 400
        "Maximum verification attempts exceeded. Please request a new code.")
      else
        updated <- db_update (mark_ok io) [Db.EqId (Db.id otpRecord)]
                     (Db.SetVerified true) ;;
        if negb updated
        then ret (Http.fail 500 "Failed to verify code")
        else
          ret (Http.verified_ok
                 (if str_eqb type (lit "email")
                  then "Email verified successfully"
                  else "Phone verified successfully"))
  end.

Definition verify_otp (io : verify_io) (body : verify_body)
  : M Http.response :=
  let email := body_email body in
  let phone := body_phone body in
  match body_otp body, body_type body with
  | Some (oc :: otp'), Some (tc :: type') =>
      let otp := oc :: otp' in
      let type := tc :: type' in
      if str_eqb type (lit "email") && negb (truthy email)
      then ret (Http.fail 400 "Email is required for email verification")
      else if str_eqb type (lit "phone") && negb (truthy phone)
      then ret (Http.fail 400 "Phone is required for phone verification")
      else if negb (Nat.eqb (List.length otp) OTP_LENGTH)
              || negb (test digitsRegex otp)
      then ret (Http.fail 400 "Invalid verification code format")
      else
        let formattedPhone :=
          if truthy phone
          then option_map formatPhoneNumber phone
          else None in
        find_and_verify io type otp (dest_cond type email formattedPhone)
  | _, _ => ret (Http.fail 400 "OTP and type are required")
  end.

End Server.

(* ================================================================== *)
(** ** Vocabulary of the properties                                    *)
(* ================================================================== *)

Module Otp.
Import Js Server.

(** The two families of records, and the operations [issue] and [verify]
    as the endpoints that serve them. *)
Inductive kind : Type := EMAIL | PHONE.

Definition kind_name (k : kind) : jsstring :=
  match k with EMAIL => lit "email" | PHONE => lit "phone" end.

(** The destination as it is written to, and looked up in, the table. *)
Definition stored_dest (k : kind) (dest : jsstring) : jsstring :=
  match k with EMAIL => dest | PHONE => formatPhoneNumber dest end.

Definition dest_column (k : kind) (r : Db.otp_row) : option jsstring :=
  match k with EMAIL => Db.email r | PHONE => Db.phone r end.

Definition issue (cfg : config) (io : issue_io) (k : kind) (dest : jsstring)
  : M Http.response :=
  match k with
  | EMAIL => send_email_otp cfg io (Some dest)
  | PHONE => send_phone_otp cfg io (Some dest)
  end.

(** A verify request of kind [k]; [other] is the body field of the other
    kind, which the client may send or leave out. *)
Definition request (k : kind) (dest code : jsstring)
    (other : option jsstring) : verify_body :=
  match k with
  | EMAIL => {| body_email := Some dest; body_phone := other;
                body_otp := Some code; body_type := Some (lit "email") |}
  | PHONE => {| body_email := other; body_phone := Some dest;
                body_otp := Some code; body_type := Some (lit "phone") |}
  end.

Definition verify (io : verify_io) (k : kind) (dest code : jsstring)
    (other : option jsstring) : M Http.response :=
  verify_otp io (request k dest code other).

(** Exactly six ASCII digits. *)
Definition six_digits (code : jsstring) : bool :=
  Nat.eqb (List.length code) 6 && forallb is_digit code.

(** The record belongs to destination [dest] of kind [k]. *)
Definition row_for (k : kind) (dest : jsstring) (r : Db.otp_row) : bool :=
  str_eqb (Db.type r) (kind_name k)
  && Db.opt_str_eqb (dest_column k r) (stored_dest k dest).

(** A live record: unverified and not yet expired at [t]. *)
Definition live (t : Z) (r : Db.otp_row) : bool :=
  negb (Db.verified r) && (t <? Db.expires_at r)%Z.

(** The two queries of [verify_otp] for a request of kind [k]. *)
Definition dest_filter (k : kind) (dest : jsstring) : Db.cond :=
  match k with
  | EMAIL => Db.EqEmail dest
  | PHONE => Db.EqPhone (formatPhoneNumber dest)
  end.

Definition lookup_query (k : kind) (dest code : jsstring) (t : Z)
  : list Db.cond :=
  [Db.EqType (kind_name k); Db.EqOtpCode code; Db.EqVerified false;
   Db.GtExpiresAt t; dest_filter k dest].

Definition recent_query (k : kind) (dest : jsstring) : list Db.cond :=
  [Db.EqType (kind_name k); Db.EqVerified false; dest_filter k dest].

Definition latest (q : list Db.cond) (t : list Db.otp_row)
  : list Db.otp_row :=
  Db.limit 1 (Db.order_created_at_desc (Db.select_where q t)).

(** The value of the attempts counter ([null] counts as 0, as in the
    source's [attempts || 0]). *)
Definition attempts_of (r : Db.otp_row) : Z :=
  match Db.attempts r with Some n => n | None => 0%Z end.

(** The responses of the source, under the names of the failure kinds. *)
Definition InvalidOrExpired : Http.response :=
  Http.fail 400 "Invalid or expired verification code".

Definition MaxAttemptsExceeded : Http.response :=
  Http.fail 400
    "Maximum verification attempts exceeded. Please request a new code.".

Definition DispatchError (r : Http.response) : Prop :=
  Http.status r = 500 /\ Http.success r = false /\
  (Http.error r = Some
     "Failed to send SMS. Please check your phone number and try again."%string
   \/ Http.error r = Some
     "Failed to send verification email. Please try again later."%string).

(** The responses sent before any statement or message leaves the
    handler. *)
Definition ValidationError (r : Http.response) : Prop :=
  In r [ Http.fail 400 "Email is required";
         Http.fail 400 "Invalid email format";
         Http.fail 400 "Phone number is required";
         Http.fail 400 "OTP and type are required";
         Http.fail 400 "Email is required for email verification";
         Http.fail 400 "Phone is required for phone verification";
         Http.fail 400 "Invalid verification code format" ].

Definition Verified (r : Http.response) : Prop :=
  Http.status r = 200 /\ Http.success r = true
  /\ Http.verified r = Some true.

(** The structural pattern of an email address, in words: one or more
    characters that are neither spaces nor [@], then [@], then one or more
    such characters, then a dot, then one or more such characters. *)
Definition email_pattern (e : jsstring) : Prop :=
  exists a b c : jsstring,
    e = a ++ [ch_at] ++ b ++ [ch_dot] ++ c
    /\ a <> [] /\ b <> [] /\ c <> []
    /\ forallb not_space_or_at a = true
    /\ forallb not_space_or_at b = true
    /\ forallb not_space_or_at c = true.

(** An ASCII digit or [+]: what the class [[^\d+]] leaves out. *)
Definition digit_or_plus (c : char) : bool := is_digit c || N.eqb c ch_plus.

(** The normalisation of a phone number as the specification words it:
    every character is removed except ASCII digits and a leading [+];
    without a leading [+], the calling code [+1] is put in front. *)
Definition normalize_as_specified (phone : jsstring) : jsstring :=
  match filter digit_or_plus phone with
  | c :: rest =>
      if N.eqb c ch_plus then c :: filter is_digit rest
      else lit "+1" ++ filter is_digit (c :: rest)
  | [] => lit "+1"
  end.

(** Several verifications in a row for one destination, each with its own
    environment and its own submitted code. *)
Fixpoint verify_each (k : kind) (dest : jsstring) (other : option jsstring)
    (calls : list (verify_io * jsstring)) (w : world)
  : list Http.response * world :=
  match calls with
  | [] => ([], w)
  | (io, code) :: rest =>
      let (r, w1) := verify io k dest code other w in
      let (rs, w2) := verify_each k dest other rest w1 in
      (r :: rs, w2)
  end.

(** The table after the statement that retires the older codes of a
    destination. *)
Definition invalidation_query (k : kind) (dest : jsstring) : list Db.cond :=
  [dest_filter k dest; Db.EqType (kind_name k); Db.EqVerified false].

Definition invalidated (k : kind) (dest : jsstring) (t : list Db.otp_row)
  : list Db.otp_row :=
  Db.update_where (invalidation_query k dest) (Db.SetVerified true) t.

(** The table after the statement that counts a failed attempt on [m]. *)
Definition bumped (m : Db.otp_row) (t : list Db.otp_row) : list Db.otp_row :=
  Db.update_where [Db.EqId (Db.id m)]
    (Db.SetAttempts (attempts_of m + 1)) t.

(** The table after the statement that marks [m] verified. *)
Definition marked (m : Db.otp_row) (t : list Db.otp_row) : list Db.otp_row :=
  Db.update_where [Db.EqId (Db.id m)] (Db.SetVerified true) t.

(** [id] is a key of the table. *)
Definition unique_ids (t : list Db.otp_row) : Prop :=
  NoDup (map Db.id t).

(** The ids of the table are unique and already drawn from its sequence:
    so it is in every world that the handlers reach from an empty table. *)
Definition well_formed (w : world) : Prop :=
  unique_ids (otp_codes w)
  /\ forall x, In x (otp_codes w) -> (Db.id x < next_id w)%N.

(** At most one record of the destination is unverified. *)
Definition one_pending (k : kind) (dest : jsstring)
    (rows : list Db.otp_row) : Prop :=
  forall x y, In x rows -> In y rows ->
              row_for k dest x = true -> row_for k dest y = true ->
              Db.verified x = false -> Db.verified y = false ->
              Db.id x = Db.id y.

(** The record [x] with one more failed attempt counted. *)
Definition count_attempt (x : Db.otp_row) : Db.otp_row :=
  Db.apply_patch (Db.SetAttempts (attempts_of x + 1)) x.


(** The same request environment with another draw of [Math.random]. *)
Definition with_random (r : Q) (io : issue_io) : issue_io :=
  {| now := now io; random := r; invalidate_ok := invalidate_ok io;
     insert_ok := insert_ok io; db_clock := db_clock io;
     mail_ok := mail_ok io; sms_error := sms_error io |}.

(** The destination passes the checks that precede the first statement of
    [issue]. *)
Definition issuable (cfg : config) (k : kind) (dest : jsstring) : bool :=
  match k with
  | EMAIL => test emailRegex dest
  | PHONE =>
      match dest with [] => false | _ :: _ => true end
      && twilioClient cfg && truthy (twilioPhoneNumber cfg)
  end.

(** A verification call that matches no live record of the destination
    in [rows], sent while the store answers every statement. *)
Definition missed (k : kind) (dest : jsstring) (rows : list Db.otp_row)
    (call : verify_io * jsstring) : Prop :=
  six_digits (snd call) = true
  /\ lookup_ok (fst call) = true
  /\ recent_ok (fst call) = true
  /\ bump_ok (fst call) = true
  /\ forall x, In x rows -> row_for k dest x = true ->
               Db.otp_code x = snd call ->
               live (v_now (fst call)) x = false.

(** The record written by [issue]: it expires ten minutes after the
    request, is unverified and has no failed attempt. *)
Definition issued_row (k : kind) (dest : jsstring) (io : issue_io) (i : N)
  : Db.otp_row :=
  {| Db.id := i;
     Db.email := match k with EMAIL => Some dest | PHONE => None end;
     Db.phone := match k with
                 | EMAIL => None
                 | PHONE => Some (formatPhoneNumber dest)
                 end;
     Db.otp_code := generateOTP (random io);
     Db.type := kind_name k;
     Db.expires_at := (now io + 600000)%Z;
     Db.verified := false;
     Db.attempts := Some 0%Z;
     Db.created_at := db_clock io |}.

(** The table after [issue] has sent its two statements. *)
Definition issued (k : kind) (dest : jsstring) (io : issue_io) (w : world)
  : list Db.otp_row :=
  (if invalidate_ok io then invalidated k dest (otp_codes w)
   else otp_codes w)
  ++ (if insert_ok io then [issued_row k dest io (next_id w)] else []).

(** The worlds that the three endpoints reach from an empty table. *)
Inductive reachable : world -> Prop :=
| reach_empty : forall (i : N) (tr : list effect),
    reachable {| otp_codes := []; next_id := i; trace := tr |}
| reach_email : forall cfg io email w,
    reachable w -> reachable (snd (send_email_otp cfg io email w))
| reach_phone : forall cfg io phone w,
    reachable w -> reachable (snd (send_phone_otp cfg io phone w))
| reach_verify : forall io body w,
    reachable w -> reachable (snd (verify_otp io body w)).

End Otp.

(* ================================================================== *)
(** ** Sample data                                                     *)
(* ================================================================== *)

Module Sample.
Import Js Server.

Definition development : config :=
  {| NODE_ENV := Some (lit "development"); sendGridApiKey := None;
     twilioClient := true; twilioPhoneNumber := Some (lit "+15550100") |}.

Definition production : config :=
  {| NODE_ENV := Some (lit "production");
     sendGridApiKey := Some (lit "SG.key");
     twilioClient := true; twilioPhoneNumber := Some (lit "+15550100") |}.

Definition empty : world := {| otp_codes := []; next_id := 1; trace := [] |}.

(** A request at time [t] whose draw of [Math.random] is [r], with every
    statement and message going through. *)
Definition at_time (t : Z) (r : Q) : issue_io :=
  {| now := t; random := r; invalidate_ok := true; insert_ok := true;
     db_clock := t; mail_ok := true; sms_error := None |}.

Definition sms_down (t : Z) (r : Q) : issue_io :=
  {| now := t; random := r; invalidate_ok := true; insert_ok := true;
     db_clock := t; mail_ok := true; sms_error := Some "unreachable"%string |}.

Definition checking (t : Z) : verify_io :=
  {| v_now := t; lookup_ok := true; recent_ok := true; bump_ok := true;
     mark_ok := true |}.

Definition alice : jsstring := lit "a@b.com".
Definition mobile : jsstring := lit "(555) 123-4567".

(** The world after one issuance to [alice] at time 0; the code is
    ["550000"]. *)
Definition issued_once : world :=
  snd (Otp.issue development (at_time 0 (1#2)) Otp.EMAIL alice empty).





(** Five wrong guesses in a row, and the world after them. *)
Definition five_guesses : list (verify_io * jsstring) :=
  [(checking 1000, lit "000001"); (checking 2000, lit "000002");
   (checking 3000, lit "000003"); (checking 4000, lit "000004");
   (checking 5000, lit "000005")].

Definition exhausted : world :=
  snd (Otp.verify_each Otp.EMAIL alice None five_guesses issued_once).

(** The record of [alice] in that world, with its five attempts. *)
Definition exhausted_record : Db.otp_row :=
  Db.apply_patch (Db.SetAttempts 5)
    (Otp.issued_row Otp.EMAIL alice (at_time 0 (1#2)) 1).

Definition two_more_guesses : list (verify_io * jsstring) :=
  [(checking 6000, lit "000006"); (checking 7000, lit "000007")].

End Sample.

(* ================================================================== *)
(** ** The life of a record                                            *)
(* ================================================================== *)

Module Life.
Import Js Server.

(** Two states of one record agree on everything but the verified flag
    and the attempts counter. *)
Definition same_record (x y : Db.otp_row) : Prop :=
  Db.id x = Db.id y /\ Db.email x = Db.email y /\ Db.phone x = Db.phone y
  /\ Db.otp_code x = Db.otp_code y /\ Db.type x = Db.type y
  /\ Db.expires_at x = Db.expires_at y
  /\ Db.created_at x = Db.created_at y.

(** A later state of a record: the flag is not taken back and the counter
    does not go down. *)
Definition advances (x y : Db.otp_row) : Prop :=
  same_record x y
  /\ (Db.verified x = true -> Db.verified y = true)
  /\ (Otp.attempts_of x <= Otp.attempts_of y)%Z.

(** Any verification requests in a row, each with its own environment. *)
Fixpoint verify_all (calls : list (verify_io * verify_body)) (w : world)
  : world :=
  match calls with
  | [] => w
  | (io, body) :: rest => verify_all rest (snd (verify_otp io body w))
  end.

(** The record with id [i] is unverified and has used up its attempts. *)
Definition locked (i : N) (w : world) : Prop :=
  exists x, In x (otp_codes w) /\ Db.id x = i /\ Db.verified x = false
            /\ attempts_exceeded (Db.attempts x) = true.

End Life.

(* ================================================================== *)
(** ** JSON values                                                     *)
(* ================================================================== *)

Module Json.
Import Js.

(** A JavaScript number.  Finite numbers are exact rationals: the rounding
    of doubles is not modelled, and neither is the sign of zero. *)
Inductive number : Type :=
| NaN : number
| PosInf : number
| NegInf : number
| Fin : Q -> number.

(** The values the handlers read from a request body or from a row of the
    store, and the values they write: the primitive values.  A body field
    that is an array or an object is not modelled. *)
Inductive value : Type :=
| VUndefined : value
| VNull : value
| VBool : bool -> value
| VNum : number -> value
| VStr : jsstring -> value.

(** An object literal or a row: its properties in order. *)
Definition object := list (string * value).

(** [o.k]: the value of a property, [undefined] when [o] has none. *)
Fixpoint get (k : string) (o : object) : value :=
  match o with
  | [] => VUndefined
  | (k', v) :: o' => if String.eqb k k' then v else get k o'
  end.

(** ToBoolean. *)
Definition truthy (v : value) : bool :=
  match v with
  | VUndefined => false
  | VNull => false
  | VBool b => b
  | VNum NaN => false
  | VNum (Fin q) => negb (Qeq_bool q 0)
  | VNum _ => true
  | VStr [] => false
  | VStr (_ :: _) => true
  end.

(** [a || b] *)
Definition or_else (a b : value) : value := if truthy a then a else b.

(** [v !== 'lit'] is [negb (is_str v lit)]. *)
Definition is_str (v : value) (s : jsstring) : bool :=
  match v with
  | VStr x => str_eqb x s
  | _ => false
  end.

(** [a < b] on numbers: false as soon as one side is [NaN]. *)
Definition lt (a b : number) : bool :=
  match a, b with
  | NaN, _ => false
  | _, NaN => false
  | _, NegInf => false
  | PosInf, _ => false
  | NegInf, _ => true
  | Fin _, PosInf => true
  | Fin x, Fin y => negb (Qle_bool y x)
  end.

(** *** [parseFloat] *)

(** The longest run of decimal digits at the start of [s], and the rest. *)
Fixpoint span_digits (s : jsstring) : jsstring * jsstring :=
  match s with
  | c :: s' =>
      if is_digit c
      then let (d, r) := span_digits s' in (c :: d, r)
      else ([], s)
  | [] => ([], [])
  end.

(** The number written by a run of decimal digits. *)
Definition digits_value (d : jsstring) : Z :=
  fold_left (fun acc c => (acc * 10 + (Z.of_N c - 48))%Z) d 0%Z.

(** The exponent part [e], [e+] or [e-] followed by digits, when [s] starts
    with one; an [e] that no digit follows is not part of the number. *)
Definition exponent (s : jsstring) : Z :=
  match s with
  | c :: r =>
      if (c =? 101)%N || (c =? 69)%N
      then
        let (sign, r') :=
          match r with
          | x :: r'' =>
              if (x =? 43)%N then (1%Z, r'')
              else if (x =? 45)%N then ((-1)%Z, r'')
              else (1%Z, r)
          | [] => (1%Z, r)
          end in
        match fst (span_digits r') with
        | [] => 0%Z
        | d => (sign * digits_value d)%Z
        end
      else 0%Z
  | [] => 0%Z
  end.

(** The value of the longest prefix of [s] that is a
    StrUnsignedDecimalLiteral: [Infinity], digits with an optional
    fraction, or a fraction alone, then an optional exponent. *)
Definition parse_unsigned (s : jsstring) : number :=
  if startsWith s (lit "Infinity") then PosInf
  else
    let (int_part, r1) := span_digits s in
    let (frac_part, r2) :=
      match r1 with
      | c :: r => if (c =? ch_dot)%N then span_digits r else ([], r1)
      | [] => ([], r1)
      end in
    match int_part, frac_part with
    | [], [] => NaN
    | _, _ =>
        Fin (((digits_value int_part # 1)
              + (digits_value frac_part
                 # Pos.pow 10 (Pos.of_nat (List.length frac_part))))
             * Qpower (10 # 1) (exponent r2))%Q
    end.

Definition negate (n : number) : number :=
  match n with
  | NaN => NaN
  | PosInf => NegInf
  | NegInf => PosInf
  | Fin q => Fin (- q)%Q
  end.

Fixpoint trim_start (s : jsstring) : jsstring :=
  match s with
  | c :: s' => if is_space c then trim_start s' else s
  | [] => []
  end.

(** [parseFloat] of a string: leading white space is skipped, a sign is
    read, and what follows the number is ignored. *)
Definition parseFloat_string (s : jsstring) : number :=
  match trim_start s with
  | c :: r =>
      if (c =? ch_plus)%N then parse_unsigned r
      else if (c =? ch_minus)%N then negate (parse_unsigned r)
      else parse_unsigned (c :: r)
  | [] => NaN
  end.

(** [parseFloat(v)] converts [v] to a string first: a number reads back as
    itself, and [undefined], [null], [true] and [false] give [NaN]. *)
Definition parseFloat (v : value) : number :=
  match v with
  | VNum n => n
  | VStr s => parseFloat_string s
  | _ => NaN
  end.

End Json.

(* ================================================================== *)
(** ** Registration, partners and MT5 logins                           *)
(* ================================================================== *)

Module Accounts.
Import Js Json.
Local Open Scope string_scope.
Local Open Scope list_scope.

(** The statements the handlers send to the store, with the table they
    address.  [SelectSingle] is [.select(columns).eq(..)...single()],
    [InsertSingle] is [.insert([row]).select().single()]. *)
Inductive statement : Type :=
| SelectSingle (table columns : string) (filters : object)
| InsertSingle (table : string) (row : object)
| Update (table : string) (patch filters : object)
| Delete (table : string) (filters : object).

Definition table_of (q : statement) : string :=
  match q with
  | SelectSingle t _ _ => t
  | InsertSingle t _ => t
  | Update t _ _ => t
  | Delete t _ => t
  end.

Definition writes (q : statement) : bool :=
  match q with
  | SelectSingle _ _ _ => false
  | _ => true
  end.

(** [res.status(status).json({ success, error, message, details, data })] *)
Record reply : Type := {
  status : nat;
  success : bool;
  error : option string;
  message : option string;
  details : option string;
  data : option object
}.

Definition fail (code : nat) (msg : string) : reply :=
  {| status := code; success := false; error := Some msg; message := None;
     details := None; data := None |}.

Definition fail_details (code : nat) (msg d : string) : reply :=
  {| status := code; success := false; error := Some msg; message := None;
     details := Some d; data := None |}.

Definition created (msg : string) (d : object) : reply :=
  {| status := 201; success := true; error := None; message := Some msg;
     details := None; data := Some d |}.

(** *** [POST /api/signup] *)

(** The keys the handler reads from [req.body]; a key the body does not
    have is [VUndefined]. *)
Record signup_body : Type := {
  fullName : value;
  email : value;
  phone : value;
  investmentAmount : value;
  country : value;
  mt5Login : value;
  mt5Password : value;
  mt5Server : value;
  emailVerified : value;
  phoneVerified : value;
  partnerId : value
}.

(** What the environment answers during one request: the value of
    [new Date().toISOString()] at the two inserts and the result of each
    statement.  A [.single()] lookup gives a
    row or [null]; the [error] beside it is read for the partner only.  An
    insert gives the stored row, or an error with its message. *)
Record signup_io : Type := {
  user_created_at : jsstring;
  mt5_created_at : jsstring;
  existingUser : option object;
  partner : option object;
  partnerError : bool;
  existingMT5 : option object;
  userInsert : object + string;
  mt5Insert : object + string
}.

Definition missing_required (b : signup_body) : bool :=
  negb (truthy (fullName b)) || negb (truthy (email b))
  || negb (truthy (phone b)) || negb (truthy (investmentAmount b))
  || negb (truthy (country b)) || negb (truthy (mt5Login b))
  || negb (truthy (mt5Password b)) || negb (truthy (mt5Server b)).

Definition user_row (io : signup_io) (b : signup_body) : object :=
  [("full_name", fullName b); ("email", email b); ("phone", phone b);
   ("investment_amount", VNum (parseFloat (investmentAmount b)));
   ("country", country b); ("partner_id", or_else (partnerId b) VNull);
   ("email_verified", emailVerified b);
   ("phone_verified", phoneVerified b); ("status", VStr (lit "pending"));
   ("created_at", VStr (user_created_at io))].

Definition mt5_row (io : signup_io) (b : signup_body) (userData : object)
  : object :=
  [("user_id", get "id" userData); ("login", mt5Login b);
   ("password", mt5Password b); ("server", mt5Server b);
   ("is_active", VBool true); ("is_primary", VBool true);
   ("created_at", VStr (mt5_created_at io))].

(** The handler from the duplicate-user lookup on: it returns the response
    and the statements sent so far, in order. *)
Definition register (io : signup_io) (b : signup_body)
  : reply * list statement :=
  let q_user := SelectSingle "users" "id, email" [("email", email b)] in
  match existingUser io with
  | Some _ => (fail 409 "User with this email already exists", [q_user])
  | None =>
      let q_partner :=
        SelectSingle "partners" "id, status" [("id", partnerId b)] in
      let checked : option reply * list statement :=
        if truthy (partnerId b)
        then
          match partnerError io, partner io with
          | false, Some p =>
              if negb (is_str (get "status" p) (lit "active"))
              then (Some (fail 400 "Partner is not active"),
                    [q_user; q_partner])
              else (None, [q_user; q_partner])
          | _, _ => (Some (fail 400 "Invalid partner ID"),
                     [q_user; q_partner])
          end
        else (None, [q_user]) in
      match checked with
      | (Some r, sent) => (r, sent)
      | (None, sent) =>
          let q_mt5 :=
            SelectSingle "mt5_logins" "id"
              [("login", mt5Login b); ("server", mt5Server b)] in
          match existingMT5 io with
          | Some _ =>
              (fail 409 "MT5 login already exists for this server",
               sent ++ [q_mt5])
          | None =>
              let ins_user := InsertSingle "users" (user_row io b) in
              match userInsert io with
              | inr msg =>
                  (fail_details 500 "Failed to create user account" msg,
                   sent ++ [q_mt5; ins_user])
              | inl userData =>
                  let ins_mt5 :=
                    InsertSingle "mt5_logins" (mt5_row io b userData) in
                  match mt5Insert io with
                  | inr msg =>
                      (fail_details 500 "Failed to create MT5 login" msg,
                       sent ++ [q_mt5; ins_user; ins_mt5;
                                Delete "users"
                                  [("id", get "id" userData)]])
                  | inl mt5Data =>
                      (created
                         "Registration submitted successfully! Our team will contact you shortly."
                         [("id", get "id" userData);
                          ("email", get "email" userData);
                          ("fullName", get "full_name" userData);
                          ("mt5LoginId", get "id" mt5Data)],
                       sent ++ [q_mt5; ins_user; ins_mt5])
                  end
              end
          end
      end
  end.

Definition signup (io : signup_io) (b : signup_body)
  : reply * list statement :=
  if missing_required b
  then (fail 400 "Missing required fields", [])
  else if negb (truthy (emailVerified b)) || negb (truthy (phoneVerified b))
  then (fail 400 "Email and phone must be verified", [])
  else if lt (parseFloat (investmentAmount b)) (Fin 100000)
  then (fail 400 "Minimum investment amount is $100,000", [])
  else register io b.

(** *** [POST /api/partners] *)

Record partner_body : Type := {
  p_name : value;
  p_email : value;
  p_phone : value;
  p_companyName : value;
  p_commissionRate : value;
  p_notes : value
}.

Record partner_io : Type := {
  existingPartner : option object;
  partnerInsert : object + string
}.

Definition partner_row (b : partner_body) : object :=
  [("name", p_name b); ("email", p_email b);
   ("phone", or_else (p_phone b) VNull);
   ("company_name", or_else (p_companyName b) VNull);
   ("commission_rate", or_else (p_commissionRate b) (VNum (Fin 0)));
   ("notes", or_else (p_notes b) VNull);
   ("status", VStr (lit "active"))].

Definition create_partner (io : partner_io) (b : partner_body)
  : reply * list statement :=
  if negb (truthy (p_name b)) || negb (truthy (p_email b))
  then (fail 400 "Name and email are required", [])
  else
    let q := SelectSingle "partners" "id" [("email", p_email b)] in
    match existingPartner io with
    | Some _ => (fail 409 "Partner with this email already exists", [q])
    | None =>
        let ins := InsertSingle "partners" (partner_row b) in
        match partnerInsert io with
        | inr msg => (fail_details 500 "Failed to create partner" msg,
                      [q; ins])
        | inl row => (created "Partner created successfully" row, [q; ins])
        end
    end.

(** *** [POST /api/users/:userId/mt5-logins] *)

Record mt5_body : Type := {
  login : value;
  password : value;
  server : value;
  isPrimary : value
}.

Record mt5_io : Type := {
  user : option object;
  existingLogin : option object;
  loginInsert : object + string
}.

Definition login_row (userId : jsstring) (b : mt5_body) : object :=
  [("user_id", VStr userId); ("login", login b);
   ("password", password b); ("server", server b);
   ("is_active", VBool true);
   ("is_primary", or_else (isPrimary b) (VBool false))].

(** The statement that takes the primary mark from the user's logins. *)
Definition unset_primary (userId : jsstring) : statement :=
  Update "mt5_logins" [("is_primary", VBool false)]
    [("user_id", VStr userId); ("is_primary", VBool true)].

Definition add_mt5_login (io : mt5_io) (userId : jsstring) (b : mt5_body)
  : reply * list statement :=
  if negb (truthy (login b)) || negb (truthy (password b))
     || negb (truthy (server b))
  then (fail 400 "Login, password, and server are required", [])
  else
    let q_user := SelectSingle "users" "id" [("id", VStr userId)] in
    match user io with
    | None => (fail 404 "User not found", [q_user])
    | Some _ =>
        let q_mt5 :=
          SelectSingle "mt5_logins" "id"
            [("login", login b); ("server", server b)] in
        match existingLogin io with
        | Some _ =>
            (fail 409 "MT5 login already exists for this server",
             [q_user; q_mt5])
        | None =>
            let sent :=
              if truthy (isPrimary b)
              then [q_user; q_mt5; unset_primary userId]
              else [q_user; q_mt5] in
            let ins := InsertSingle "mt5_logins" (login_row userId b) in
            match loginInsert io with
            | inr msg =>
                (fail_details 500 "Failed to create MT5 login" msg,
                 sent ++ [ins])
            | inl row =>
                (created "MT5 login added successfully" row, sent ++ [ins])
            end
        end
    end.

(** *** Vocabulary of the statements about these handlers *)

(** The three checks [POST /api/signup] makes on the body alone. *)
Definition acceptable (b : signup_body) : bool :=
  negb (missing_required b)
  && (truthy (emailVerified b) && truthy (phoneVerified b))
  && negb (lt (parseFloat (investmentAmount b)) (Fin 100000)).

(** The statements of a trace that change the store. *)
Definition writes_of (sent : list statement) : list statement :=
  filter writes sent.

(** The body with other values for the two verification flags. *)
Definition with_flags (ev pv : value) (b : signup_body) : signup_body :=
  {| fullName := fullName b; email := email b; phone := phone b;
     investmentAmount := investmentAmount b; country := country b;
     mt5Login := mt5Login b; mt5Password := mt5Password b;
     mt5Server := mt5Server b; emailVerified := ev; phoneVerified := pv;
     partnerId := partnerId b |}.

(** A column of a row holds a value or SQL [NULL], never [undefined]. *)
Definition null_or_truthy (v : value) : Prop :=
  v = VNull \/ truthy v = true.

End Accounts.

(* ================================================================== *)
(** ** Sample requests for the account handlers                        *)
(* ================================================================== *)

Module Applicant.
Import Js Json Accounts.
Local Open Scope string_scope.
Local Open Scope list_scope.

Definition body (amount : value) : signup_body :=
  {| fullName := VStr (lit "Ada Lovelace");
     email := VStr (lit "a@b.com");
     phone := VStr (lit "+15551234567");
     investmentAmount := amount;
     country := VStr (lit "UK");
     mt5Login := VStr (lit "700123");
     mt5Password := VStr (lit "secret");
     mt5Server := VStr (lit "Demo-1");
     emailVerified := VBool true;
     phoneVerified := VBool true;
     partnerId := VUndefined |}.

Definition stored_user : object :=
  [("id", VStr (lit "u-1")); ("email", VStr (lit "a@b.com"));
   ("full_name", VStr (lit "Ada Lovelace"))].

Definition stored_login : object := [("id", VStr (lit "m-1"))].

(** A store with no such user and no such login, where both inserts
    succeed. *)
Definition store_ok : signup_io :=
  {| user_created_at := lit "2025-01-01T00:00:00.000Z";
     mt5_created_at := lit "2025-01-01T00:00:00.250Z";
     existingUser := None; partner := None; partnerError := false;
     existingMT5 := None; userInsert := inl stored_user;
     mt5Insert := inl stored_login |}.

End Applicant.

(* ================================================================== *)
(** ** Facts                                                           *)
(* ================================================================== *)

(** Unfolds the plumbing of the handlers. *)
Ltac run :=
  cbv [Server.bind Server.ret Server.db_update Server.db_insert
       Server.db_select_latest Server.sendgrid_send Server.twilio_create].

Section JsFacts.
Import Js.

Lemma str_eqb_eq (a b : jsstring) : str_eqb a b = true <-> a = b.
Proof.
  revert b; induction a as [|x a IH]; intros [|y b]; simpl;
    try (split; intros; congruence).
  rewrite andb_true_iff, N.eqb_eq, IH.
  split; [intros [-> ->]; reflexivity | intros E; inversion E; auto].
Qed.



(** **** The derivative matcher decides [Matches] *)

Lemma Matches_Cat_inv (r1 r2 : regex) (s : jsstring) :
  Matches (Cat r1 r2) s ->
  exists s1 s2, s = s1 ++ s2 /\ Matches r1 s1 /\ Matches r2 s2.
Proof. intros H; inversion H; subst; eauto. Qed.

Lemma Matches_Or_inv (r1 r2 : regex) (s : jsstring) :
  Matches (Or r1 r2) s -> Matches r1 s \/ Matches r2 s.
Proof. intros H; inversion H; subst; auto. Qed.

Lemma Matches_Class_inv (p : char -> bool) (s : jsstring) :
  Matches (Class p) s -> exists c, s = [c] /\ p c = true.
Proof. intros H; inversion H; subst; eauto. Qed.

Lemma Matches_Never_inv (s : jsstring) : Matches Never s -> False.
Proof. intros H; inversion H. Qed.

Lemma Matches_Empty_inv (s : jsstring) : Matches Empty s -> s = [].
Proof. intros H; inversion H; reflexivity. Qed.

Lemma nullable_Matches (r : regex) : nullable r = true <-> Matches r [].
Proof.
  induction r as [| |p|r1 IH1 r2 IH2|r1 IH1 r2 IH2|r IH]; simpl.
  - split; [discriminate | intros H; inversion H].
  - split; [constructor | reflexivity].
  - split; [discriminate | intros H; inversion H].
  - rewrite andb_true_iff, IH1, IH2. split.
    + intros [H1 H2]. exact (MCat H1 H2).
    + intros H. apply Matches_Cat_inv in H as (s1 & s2 & E & H1 & H2).
      symmetry in E. apply app_eq_nil in E as [-> ->]. auto.
  - rewrite orb_true_iff, IH1, IH2. split.
    + intros [H|H]; [apply MOrL | apply MOrR]; assumption.
    + apply Matches_Or_inv.
  - split; [constructor | reflexivity].
Qed.

Lemma Matches_Star_cons (r : regex) (c : char) (s : jsstring) :
  Matches (Star r) (c :: s) ->
  exists s1 s2, s = s1 ++ s2 /\ Matches r (c :: s1) /\ Matches (Star r) s2.
Proof.
  intros H.
  remember (Star r) as r' eqn:Er. remember (c :: s) as cs eqn:Es.
  revert s Es.
  induction H as [| | | | | |r0 s1 s2 H1 _ H2 IH2]; intros t Es;
    try discriminate.
  inversion Er; subst r0.
  destruct s1 as [|x s1]; simpl in Es.
  - apply IH2; auto.
  - inversion Es; subst. exists s1, s2. auto.
Qed.

Lemma Matches_Cat_cons (r1 r2 : regex) (c : char) (s : jsstring) :
  Matches (Cat r1 r2) (c :: s) ->
  (Matches r1 [] /\ Matches r2 (c :: s))
  \/ exists s1 s2, s = s1 ++ s2 /\ Matches r1 (c :: s1) /\ Matches r2 s2.
Proof.
  intros H. apply Matches_Cat_inv in H as (s1 & s2 & E & H1 & H2).
  destruct s1 as [|x s1]; simpl in E.
  - subst s2. left; auto.
  - inversion E; subst. right; eauto.
Qed.

Lemma deriv_Matches (r : regex) (c : char) (s : jsstring) :
  Matches (deriv c r) s <-> Matches r (c :: s).
Proof.
  revert s.
  induction r as [| |p|r1 IH1 r2 IH2|r1 IH1 r2 IH2|r IH]; intros s; simpl.
  - split; intros H; inversion H.
  - split; intros H; inversion H.
  - destruct (p c) eqn:Ep; split; intros H.
    + apply Matches_Empty_inv in H as ->. constructor; assumption.
    + apply Matches_Class_inv in H as (x & E & Hx). inversion E; constructor.
    + destruct (Matches_Never_inv H).
    + apply Matches_Class_inv in H as (x & E & Hx). inversion E; congruence.
  - assert (Hcat : Matches (Cat (deriv c r1) r2) s <->
                   exists s1 s2, s = s1 ++ s2 /\ Matches r1 (c :: s1)
                                 /\ Matches r2 s2).
    { split.
      - intros H. apply Matches_Cat_inv in H as (s1 & s2 & -> & H1 & H2).
        apply IH1 in H1. eauto.
      - intros (s1 & s2 & -> & H1 & H2). apply MCat; [apply IH1|]; auto. }
    destruct (nullable r1) eqn:En.
    + split.
      * intros H. apply Matches_Or_inv in H as [H|H].
        -- apply Hcat in H as (s1 & s2 & -> & H1 & H2).
           exact (MCat H1 H2).
        -- apply IH2 in H. apply nullable_Matches in En. exact (MCat En H).
      * intros H. apply Matches_Cat_cons in H as [[_ H]|H].
        -- apply MOrR, IH2, H.
        -- apply MOrL, Hcat, H.
    + split.
      * intros H. apply Hcat in H as (s1 & s2 & -> & H1 & H2).
        exact (MCat H1 H2).
      * intros H. apply Matches_Cat_cons in H as [[H _]|H].
        -- apply nullable_Matches in H. congruence.
        -- apply Hcat, H.
  - split; intros H.
    + apply Matches_Or_inv in H as [H|H];
        [apply MOrL, IH1, H | apply MOrR, IH2, H].
    + apply Matches_Or_inv in H as [H|H];
        [apply MOrL, IH1, H | apply MOrR, IH2, H].
  - split.
    + intros H. apply Matches_Cat_inv in H as (s1 & s2 & -> & Ha & Hb).
      apply IH in Ha. exact (MStarApp Ha Hb).
    + intros H. apply Matches_Star_cons in H as (s1 & s2 & -> & Ha & Hb).
      apply MCat; [apply IH|]; assumption.
Qed.

Lemma test_Matches (r : regex) (s : jsstring) :
  test r s = true <-> Matches r s.
Proof.
  revert r; induction s as [|c s IH]; intros r; simpl.
  - apply nullable_Matches.
  - rewrite IH. apply deriv_Matches.
Qed.

Lemma Matches_Star_Class (p : char -> bool) (s : jsstring) :
  Matches (Star (Class p)) s <-> forallb p s = true.
Proof.
  split.
  - intros H. remember (Star (Class p)) as r eqn:Er.
    induction H as [| | | | | |r0 s1 s2 H1 _ H2 IH2]; try discriminate.
    + reflexivity.
    + inversion Er; subst r0.
      apply Matches_Class_inv in H1 as (x & -> & Hx). simpl.
      rewrite IH2 by reflexivity. rewrite andb_true_r. assumption.
  - induction s as [|c s IH]; simpl; intros H.
    + constructor.
    + apply andb_true_iff in H as [Hc Hs].
      change (c :: s) with ([c] ++ s).
      apply MStarApp; [constructor; assumption | auto].
Qed.

Lemma Matches_Plus_Class (p : char -> bool) (s : jsstring) :
  Matches (Plus (Class p)) s <-> s <> [] /\ forallb p s = true.
Proof.
  unfold Plus. split.
  - intros H. apply Matches_Cat_inv in H as (s1 & s2 & -> & Ha & Hb).
    apply Matches_Class_inv in Ha as (x & -> & Hx).
    apply Matches_Star_Class in Hb. simpl.
    split; [discriminate|]. rewrite Hb, andb_true_r. assumption.
  - intros [Hne H]. destruct s as [|c s]; [congruence|].
    simpl in H. apply andb_true_iff in H as [Hc Hs].
    change (c :: s) with ([c] ++ s).
    apply MCat; [constructor; assumption | apply Matches_Star_Class; auto].
Qed.

Lemma Matches_Chr (c : char) (s : jsstring) : Matches (Chr c) s <-> s = [c].
Proof.
  unfold Chr. split.
  - intros H. apply Matches_Class_inv in H as (x & -> & Hx).
    apply N.eqb_eq in Hx. congruence.
  - intros ->. constructor. apply N.eqb_refl.
Qed.


(** **** The two regular expressions of the source *)

Lemma emailRegex_pattern (e : jsstring) :
  test Server.emailRegex e = true <-> Otp.email_pattern e.
Proof.
  rewrite test_Matches. unfold Server.emailRegex, Otp.email_pattern. split.
  - intros H.
    apply Matches_Cat_inv in H as (a & s1 & -> & Ha & H).
    apply Matches_Cat_inv in H as (x & s2 & -> & Hx & H).
    apply Matches_Cat_inv in H as (b & s3 & -> & Hb & H).
    apply Matches_Cat_inv in H as (y & c & -> & Hy & Hc).
    apply Matches_Chr in Hx as ->. apply Matches_Chr in Hy as ->.
    apply Matches_Plus_Class in Ha as [? ?].
    apply Matches_Plus_Class in Hb as [? ?].
    apply Matches_Plus_Class in Hc as [? ?].
    exists a, b, c. auto 10.
  - intros (a & b & c & -> & Ha & Hb & Hc & Fa & Fb & Fc).
    apply MCat; [apply Matches_Plus_Class; auto|].
    apply MCat; [apply Matches_Chr; reflexivity|].
    apply MCat; [apply Matches_Plus_Class; auto|].
    apply MCat; [apply Matches_Chr; reflexivity|].
    apply Matches_Plus_Class; auto.
Qed.

Lemma digitsRegex_test (c : jsstring) :
  test Server.digitsRegex c = true <-> c <> [] /\ forallb is_digit c = true.
Proof.
  rewrite test_Matches. apply Matches_Plus_Class.
Qed.

(** The format check of [verify_otp] rejects exactly the codes that are not
    six ASCII digits. *)
Lemma otp_format_check (c : jsstring) :
  negb (Nat.eqb (List.length c) Server.OTP_LENGTH)
  || negb (test Server.digitsRegex c) = negb (Otp.six_digits c).
Proof.
  unfold Otp.six_digits, Server.OTP_LENGTH.
  destruct (Nat.eqb (List.length c) 6) eqn:El; [|reflexivity].
  simpl. f_equal. apply eq_true_iff_eq. rewrite digitsRegex_test.
  split; [tauto | intros H; split; [|exact H]].
  intros ->. discriminate.
Qed.

(** **** Decimal rendering *)







End JsFacts.

Section DbFacts.
Import Js.

Lemma In_insert_desc (r x : Db.otp_row) (l : list Db.otp_row) :
  In x (Db.insert_desc r l) <-> x = r \/ In x l.
Proof.
  induction l as [|y l IH]; simpl.
  - intuition congruence.
  - destruct (Db.created_at y <=? Db.created_at r)%Z; simpl.
    + intuition congruence.
    + rewrite IH. intuition congruence.
Qed.

Lemma In_order_created_at_desc (x : Db.otp_row) (l : list Db.otp_row) :
  In x (Db.order_created_at_desc l) <-> In x l.
Proof.
  induction l as [|y l IH]; simpl; [tauto|].
  rewrite In_insert_desc, IH. intuition congruence.
Qed.

Lemma insert_desc_head (r : Db.otp_row) (l : list Db.otp_row) :
  Db.head_is_latest l -> Db.head_is_latest (Db.insert_desc r l).
Proof.
  destruct l as [|y l]; simpl; [tauto|].
  intros H. destruct (Db.created_at y <=? Db.created_at r)%Z eqn:E; simpl.
  - apply Z.leb_le in E. intros x [<-|Hx]; [assumption|].
    specialize (H x Hx). lia.
  - apply Z.leb_gt in E. intros x Hx.
    apply In_insert_desc in Hx as [->|Hx]; [lia | auto].
Qed.

Lemma order_head_is_latest (l : list Db.otp_row) :
  Db.head_is_latest (Db.order_created_at_desc l).
Proof.
  induction l as [|y l IH]; simpl; [exact I | apply insert_desc_head, IH].
Qed.

Lemma order_nil_iff (l : list Db.otp_row) :
  Db.order_created_at_desc l = [] <-> l = [].
Proof.
  split; [|intros ->; reflexivity].
  intros H. destruct l as [|y l]; [reflexivity|].
  assert (Hy : In y (Db.order_created_at_desc (y :: l)))
    by (apply In_order_created_at_desc; left; reflexivity).
  rewrite H in Hy. destruct Hy.
Qed.

Lemma In_select_where (q : list Db.cond) (t : list Db.otp_row)
    (x : Db.otp_row) :
  In x (Db.select_where q t) <-> In x t /\ Db.satisfies q x = true.
Proof. apply filter_In. Qed.

(** [latest] returns no row exactly when no row satisfies the query. *)
Lemma latest_nil_iff (q : list Db.cond) (t : list Db.otp_row) :
  Otp.latest q t = [] <->
  forall x, In x t -> Db.satisfies q x = false.
Proof.
  unfold Otp.latest, Db.limit.
  destruct (Db.order_created_at_desc (Db.select_where q t)) as [|h l] eqn:E;
    simpl.
  - rewrite order_nil_iff in E. split; [intros _ x Hx|reflexivity].
    destruct (Db.satisfies q x) eqn:Es; [|reflexivity].
    assert (H : In x (Db.select_where q t)) by (apply In_select_where; auto).
    rewrite E in H. destruct H.
  - split; [discriminate|]. intros H.
    assert (Hh : In h (Db.select_where q t))
      by (apply In_order_created_at_desc; rewrite E; left; reflexivity).
    apply In_select_where in Hh as [Hin Hs].
    rewrite (H h Hin) in Hs. discriminate.
Qed.

(** [latest] returns at most one row: one that satisfies the query and
    that no other satisfying row is more recent than. *)
Lemma latest_cons (q : list Db.cond) (t : list Db.otp_row)
    (r : Db.otp_row) (rest : list Db.otp_row) :
  Otp.latest q t = r :: rest ->
  rest = [] /\ In r t /\ Db.satisfies q r = true
  /\ forall x, In x t -> Db.satisfies q x = true ->
               (Db.created_at x <= Db.created_at r)%Z.
Proof.
  unfold Otp.latest, Db.limit. intros H.
  pose proof (order_head_is_latest (Db.select_where q t)) as Hl.
  destruct (Db.order_created_at_desc (Db.select_where q t)) as [|h l] eqn:E;
    simpl in H; [discriminate|].
  destruct l; simpl in H; inversion H; subst.
  - assert (Hr : In r (Db.select_where q t))
      by (apply In_order_created_at_desc; rewrite E; left; reflexivity).
    apply In_select_where in Hr as [Hin Hs].
    repeat split; auto.
    intros x Hx Hsx.
    assert (Hx' : In x (Db.order_created_at_desc (Db.select_where q t)))
      by (apply In_order_created_at_desc, In_select_where; auto).
    rewrite E in Hx'. destruct Hx' as [->|[]]. lia.
  - assert (Hr : In r (Db.select_where q t))
      by (apply In_order_created_at_desc; rewrite E; left; reflexivity).
    apply In_select_where in Hr as [Hin Hs].
    repeat split; auto.
    intros x Hx Hsx.
    assert (Hx' : In x (Db.order_created_at_desc (Db.select_where q t)))
      by (apply In_order_created_at_desc, In_select_where; auto).
    rewrite E in Hx'. destruct Hx' as [->|Hx']; [lia|].
    apply (Hl x Hx').
Qed.

(** A satisfying row that is strictly more recent than every other
    satisfying row is the one [latest] returns. *)
Lemma latest_unique (q : list Db.cond) (t : list Db.otp_row)
    (r : Db.otp_row) :
  In r t -> Db.satisfies q r = true ->
  (forall x, In x t -> Db.satisfies q x = true ->
             x = r \/ (Db.created_at x < Db.created_at r)%Z) ->
  Otp.latest q t = [r].
Proof.
  intros Hin Hs Hmax.
  destruct (Otp.latest q t) as [|h rest] eqn:E.
  - rewrite latest_nil_iff in E. rewrite (E r Hin) in Hs. discriminate.
  - apply latest_cons in E as (-> & Hh & Hsh & Hle).
    destruct (Hmax h Hh Hsh) as [->|Hlt]; [reflexivity|].
    specialize (Hle r Hin Hs). lia.
Qed.

End DbFacts.

(* ================================================================== *)
(** ** Phone numbers                                                   *)
(* ================================================================== *)

Section PhoneNumbers.
Import Js Server.

Lemma replace_keeps_digit_or_plus (phone : jsstring) :
  replace_class_g not_digit_or_plus phone = filter Otp.digit_or_plus phone.
Proof.
  unfold replace_class_g. apply filter_ext. intros c.
  unfold not_digit_or_plus, Otp.digit_or_plus. apply negb_involutive.
Qed.

Lemma startsWith_plus (s : jsstring) :
  startsWith s (lit "+") =
  match s with c :: _ => N.eqb c ch_plus | [] => false end.
Proof.
  destruct s as [|c s]; [reflexivity|].
  change (lit "+") with [ch_plus]. simpl.
  destruct s; apply andb_true_r.
Qed.

Lemma formatPhoneNumber_eq (phone : jsstring) :
  formatPhoneNumber phone =
  match filter Otp.digit_or_plus phone with
  | c :: rest => if N.eqb c ch_plus then c :: rest
                 else lit "+1" ++ c :: rest
  | [] => lit "+1"
  end.
Proof.
  unfold formatPhoneNumber. rewrite replace_keeps_digit_or_plus.
  rewrite startsWith_plus.
  destruct (filter Otp.digit_or_plus phone) as [|c rest]; [reflexivity|].
  destruct (N.eqb c ch_plus); reflexivity.
Qed.

Lemma forallb_filter_self (p : char -> bool) (s : jsstring) :
  forallb p (filter p s) = true.
Proof.
  induction s as [|c s IH]; simpl; [reflexivity|].
  destruct (p c) eqn:E; simpl; [rewrite E|]; exact IH.
Qed.


(** C7, as stated, fails: a [+] that is not leading is kept.  The input
    ["1+2"] becomes ["+11+2"], where the specified normalisation gives
    ["+112"]. *)
Lemma formatPhoneNumber_keeps_inner_plus :
  lit "1+2" <> []
  /\ formatPhoneNumber (lit "1+2") = lit "+11+2"
  /\ formatPhoneNumber (lit "1+2") <> Otp.normalize_as_specified (lit "1+2").
Proof.
  split; [discriminate|]. split; [reflexivity|].
  vm_compute. discriminate.
Qed.

(** C7, amended: [formatPhoneNumber] removes every character except ASCII
    digits and [+] (a [+] at any position is kept, not only a leading one)
    and, if the result does not start with [+], puts [+1] in front.  So the
    result starts with [+], consists of digits and [+] only, and differs
    from the specified normalisation exactly by the later [+] characters it
    keeps.  ["(555) 123-4567"] becomes ["+15551234567"] and
    ["+44 20 7946 0958"] becomes ["+442079460958"]. *)
Theorem formatPhoneNumber_normalizes (phone : jsstring) :
  formatPhoneNumber phone =
    (let kept := filter Otp.digit_or_plus phone in
     if startsWith kept (lit "+") then kept else lit "+1" ++ kept)
  /\ forallb Otp.digit_or_plus (formatPhoneNumber phone) = true
  /\ startsWith (formatPhoneNumber phone) (lit "+") = true
  /\ Otp.normalize_as_specified phone =
       match formatPhoneNumber phone with
       | c :: rest => c :: filter is_digit rest
       | [] => []
       end
  /\ formatPhoneNumber (lit "(555) 123-4567") = lit "+15551234567"
  /\ formatPhoneNumber (lit "+44 20 7946 0958") = lit "+442079460958".
Proof.
  split; [|split; [|split; [|split; [|split; reflexivity]]]].
  - cbv zeta. rewrite formatPhoneNumber_eq, startsWith_plus.
    destruct (filter Otp.digit_or_plus phone) as [|c rest]; [reflexivity|].
    destruct (N.eqb c ch_plus); reflexivity.
  - rewrite formatPhoneNumber_eq.
    pose proof (forallb_filter_self Otp.digit_or_plus phone) as H.
    destruct (filter Otp.digit_or_plus phone) as [|c rest]; [reflexivity|].
    destruct (N.eqb c ch_plus); [exact H|].
    change (lit "+1") with [43%N; 49%N]. simpl app.
    change (forallb Otp.digit_or_plus (43%N :: 49%N :: c :: rest))
      with (true && (true && forallb Otp.digit_or_plus (c :: rest))).
    exact H.
  - rewrite formatPhoneNumber_eq, startsWith_plus.
    destruct (filter Otp.digit_or_plus phone) as [|c rest]; [reflexivity|].
    destruct (N.eqb c ch_plus) eqn:E; [exact E | reflexivity].
  - rewrite formatPhoneNumber_eq. unfold Otp.normalize_as_specified.
    destruct (filter Otp.digit_or_plus phone) as [|c rest]; [reflexivity|].
    destruct (N.eqb c ch_plus); reflexivity.
Qed.

End PhoneNumbers.

(* ================================================================== *)
(** ** Issuing a code                                                  *)
(* ================================================================== *)

Section Issue.
Import Js Server.

Lemma setMinutes_expiry (t : Z) :
  setMinutes t (getMinutes t + OTP_EXPIRY_MINUTES) = (t + 600000)%Z.
Proof. unfold setMinutes, OTP_EXPIRY_MINUTES. ring. Qed.

Lemma env_production_not_development (cfg : config) :
  env_is cfg "production" = true -> env_is cfg "development" = false.
Proof.
  unfold env_is. destruct (NODE_ENV cfg) as [s|]; [|discriminate].
  intros H. apply str_eqb_eq in H. subst s. reflexivity.
Qed.

Lemma env_development_not_production (cfg : config) :
  env_is cfg "development" = true -> env_is cfg "production" = false.
Proof.
  unfold env_is. destruct (NODE_ENV cfg) as [s|]; [|discriminate].
  intros H. apply str_eqb_eq in H. subst s. reflexivity.
Qed.

(** The response of [send_email_otp] carries a code only in development,
    and then it is the generated one. *)
Lemma send_email_otp_echo (cfg : config) (io : issue_io)
    (email : option jsstring) (w : world) (c : jsstring) :
  Http.otp (fst (send_email_otp cfg io email w)) = Some c ->
  env_is cfg "development" = true /\ c = generateOTP (random io)
  /\ insert_ok io = true
  /\ exists e, email = Some e /\ test emailRegex e = true.
Proof.
  unfold send_email_otp.
  destruct email as [[|x e]|]; try discriminate.
  destruct (test emailRegex (x :: e)) eqn:Et; [|discriminate].
  run. simpl negb. cbv iota.
  destruct (invalidate_ok io), (insert_ok io); simpl; try discriminate;
    destruct (truthy (sendGridApiKey cfg)), (mail_ok io),
      (env_is cfg "production"); simpl; try discriminate;
    destruct (env_is cfg "development"); simpl; try discriminate;
    intros H; inversion H; eauto 10.
Qed.

Lemma send_phone_otp_echo (cfg : config) (io : issue_io)
    (phone : option jsstring) (w : world) (c : jsstring) :
  Http.otp (fst (send_phone_otp cfg io phone w)) = Some c ->
  env_is cfg "development" = true /\ c = generateOTP (random io)
  /\ insert_ok io = true /\ sms_error io = None.
Proof.
  unfold send_phone_otp.
  destruct phone as [[|x p]|]; try discriminate.
  destruct (negb (twilioClient cfg) || negb (truthy (twilioPhoneNumber cfg)));
    [discriminate|].
  run.
  destruct (invalidate_ok io), (insert_ok io); simpl; try discriminate;
    destruct (sms_error io); simpl; try discriminate;
    destruct (env_is cfg "development"); simpl; try discriminate;
    intros H; inversion H; auto.
Qed.

(** Outside development the response does not depend on the draw. *)
Lemma send_email_otp_draw (cfg : config) (io : issue_io)
    (email : option jsstring) (w : world) (r' : Q) :
  env_is cfg "development" = false ->
  fst (send_email_otp cfg (Otp.with_random r' io) email w)
  = fst (send_email_otp cfg io email w).
Proof.
  intros Hdev. unfold send_email_otp.
  destruct email as [[|x e]|]; try reflexivity.
  destruct (test emailRegex (x :: e)); [|reflexivity].
  run. simpl negb. cbv iota. rewrite Hdev.
  cbn [Otp.with_random invalidate_ok insert_ok mail_ok].
  destruct (invalidate_ok io), (insert_ok io); simpl; try reflexivity;
    destruct (truthy (sendGridApiKey cfg)), (mail_ok io),
      (env_is cfg "production"); reflexivity.
Qed.

Lemma send_phone_otp_draw (cfg : config) (io : issue_io)
    (phone : option jsstring) (w : world) (r' : Q) :
  env_is cfg "development" = false ->
  fst (send_phone_otp cfg (Otp.with_random r' io) phone w)
  = fst (send_phone_otp cfg io phone w).
Proof.
  intros Hdev. unfold send_phone_otp.
  destruct phone as [[|x p]|]; try reflexivity.
  destruct (negb (twilioClient cfg) || negb (truthy (twilioPhoneNumber cfg)));
    [reflexivity|].
  run. rewrite Hdev. cbn [Otp.with_random invalidate_ok insert_ok sms_error].
  destruct (invalidate_ok io), (insert_ok io); simpl; try reflexivity;
    destruct (sms_error io); reflexivity.
Qed.


(** C6: the generated code is in the response of an issuance only when the
    process runs in development mode; in production the response carries no
    code, and it is the same response whatever code was generated. *)
Theorem otp_echoed_only_outside_production (cfg : config) (io : issue_io)
    (dest : option jsstring) (w : world) :
  (forall c,
      Http.otp (fst (send_email_otp cfg io dest w)) = Some c
      \/ Http.otp (fst (send_phone_otp cfg io dest w)) = Some c ->
      env_is cfg "development" = true /\ env_is cfg "production" = false
      /\ c = generateOTP (random io))
  /\ (env_is cfg "production" = true ->
      Http.otp (fst (send_email_otp cfg io dest w)) = None
      /\ Http.otp (fst (send_phone_otp cfg io dest w)) = None
      /\ forall r' : Q,
          fst (send_email_otp cfg (Otp.with_random r' io) dest w)
          = fst (send_email_otp cfg io dest w)
          /\ fst (send_phone_otp cfg (Otp.with_random r' io) dest w)
             = fst (send_phone_otp cfg io dest w)).
Proof.
  split.
  - intros c [H|H].
    + apply send_email_otp_echo in H as (Hd & Hc & _).
      auto using env_development_not_production.
    + apply send_phone_otp_echo in H as (Hd & Hc & _).
      auto using env_development_not_production.
  - intros Hp. pose proof (env_production_not_development cfg Hp) as Hd.
    split; [|split].
    + destruct (Http.otp (fst (send_email_otp cfg io dest w))) as [c|] eqn:E;
        [|reflexivity].
      apply send_email_otp_echo in E as (Hd' & _). congruence.
    + destruct (Http.otp (fst (send_phone_otp cfg io dest w))) as [c|] eqn:E;
        [|reflexivity].
      apply send_phone_otp_echo in E as (Hd' & _). congruence.
    + intros r'. split;
        [apply send_email_otp_draw | apply send_phone_otp_draw]; exact Hd.
Qed.

Lemma otp_echoed_only_outside_production_witness :
  Http.otp (fst (send_email_otp Sample.development (Sample.at_time 0 (1#2))
                   (Some Sample.alice) Sample.empty))
    = Some (lit "550000")
  /\ env_is Sample.development "production" = false
  /\ Http.otp (fst (send_email_otp Sample.production (Sample.at_time 0 (1#2))
                      (Some Sample.alice) Sample.empty)) = None
  /\ fst (send_phone_otp Sample.production
            (Otp.with_random (1#4) (Sample.at_time 0 (1#2)))
            (Some Sample.mobile) Sample.empty)
     = fst (send_phone_otp Sample.production (Sample.at_time 0 (1#2))
              (Some Sample.mobile) Sample.empty).
Proof.
  pose proof (otp_echoed_only_outside_production Sample.development
                (Sample.at_time 0 (1#2)) (Some Sample.alice) Sample.empty)
    as [Hdev _].
  pose proof (otp_echoed_only_outside_production Sample.production
                (Sample.at_time 0 (1#2)) (Some Sample.alice) Sample.empty)
    as [_ Hmail].
  pose proof (otp_echoed_only_outside_production Sample.production
                (Sample.at_time 0 (1#2)) (Some Sample.mobile) Sample.empty)
    as [_ Hsms].
  split; [reflexivity|]. split.
  - apply (Hdev (lit "550000")). left. reflexivity.
  - split.
    + apply Hmail. reflexivity.
    + apply Hsms. reflexivity.
Defined.

End Issue.

(* ================================================================== *)
(** ** The table after an issuance                                     *)
(* ================================================================== *)

Section IssueTable.
Import Js Server.

Lemma satisfies_invalidation_query (k : Otp.kind) (dest : jsstring)
    (x : Db.otp_row) :
  Db.satisfies (Otp.invalidation_query k dest) x
  = Otp.row_for k dest x && negb (Db.verified x).
Proof.
  unfold Otp.invalidation_query, Db.satisfies, Otp.row_for. cbn [forallb].
  replace (Db.holds (Otp.dest_filter k dest) x)
    with (Db.opt_str_eqb (Otp.dest_column k x) (Otp.stored_dest k dest))
    by (destruct k; reflexivity).
  cbn [Db.holds].
  destruct (Db.opt_str_eqb _ _), (str_eqb _ _), (Db.verified x); reflexivity.
Qed.

Lemma invalidated_eq (k : Otp.kind) (dest : jsstring) (t : list Db.otp_row) :
  Otp.invalidated k dest t
  = map (fun x => if Otp.row_for k dest x && negb (Db.verified x)
                  then Db.apply_patch (Db.SetVerified true) x else x) t.
Proof.
  unfold Otp.invalidated, Db.update_where. apply map_ext. intros x.
  rewrite satisfies_invalidation_query. reflexivity.
Qed.

(** After the invalidation every record of the destination is flagged
    verified. *)
Lemma invalidated_verified (k : Otp.kind) (dest : jsstring)
    (t : list Db.otp_row) (x : Db.otp_row) :
  In x (Otp.invalidated k dest t) -> Otp.row_for k dest x = true ->
  Db.verified x = true.
Proof.
  rewrite invalidated_eq, in_map_iff. intros (y & <- & _).
  destruct (Otp.row_for k dest y && negb (Db.verified y)) eqn:E.
  - reflexivity.
  - intros Hy. rewrite Hy in E. simpl in E.
    destruct (Db.verified y); [reflexivity | discriminate].
Qed.

Lemma issue_table (cfg : config) (io : issue_io) (k : Otp.kind)
    (dest : jsstring) (w : world) :
  Otp.issuable cfg k dest = true ->
  otp_codes (snd (Otp.issue cfg io k dest w)) = Otp.issued k dest io w.
Proof.
  unfold Otp.issuable, Otp.issue, Otp.issued, Otp.invalidated,
    Otp.issued_row.
  destruct k; intros H.
  - unfold send_email_otp.
    destruct dest as [|x e]; [discriminate|]. rewrite H.
    rewrite setMinutes_expiry. run. simpl negb. cbv iota.
    destruct (invalidate_ok io), (insert_ok io); simpl;
      rewrite ?app_nil_r; try reflexivity;
      destruct (truthy (sendGridApiKey cfg)), (mail_ok io),
        (env_is cfg "production"); reflexivity.
  - unfold send_phone_otp.
    destruct dest as [|x p]; [discriminate|]. simpl in H.
    apply andb_true_iff in H as [H1 H2]. rewrite H1, H2.
    rewrite setMinutes_expiry. run. simpl negb. simpl orb. cbv iota.
    destruct (invalidate_ok io), (insert_ok io); simpl;
      rewrite ?app_nil_r; try reflexivity;
      destruct (sms_error io); reflexivity.
Qed.


(** In the table after an issuance whose invalidation went through, the
    only unverified record of the destination is the new one. *)
Lemma issued_only_pending (k : Otp.kind) (dest : jsstring) (io : issue_io)
    (w : world) (x : Db.otp_row) :
  invalidate_ok io = true ->
  In x (Otp.issued k dest io w) -> Otp.row_for k dest x = true ->
  Db.verified x = false ->
  insert_ok io = true /\ x = Otp.issued_row k dest io (next_id w).
Proof.
  unfold Otp.issued. intros -> Hin Hfor Hv.
  apply in_app_or in Hin as [Hin|Hin].
  - rewrite (invalidated_verified _ _ _ _ Hin Hfor) in Hv. discriminate.
  - destruct (insert_ok io); [|destruct Hin].
    destruct Hin as [<-|[]]. auto.
Qed.

(** C9: when the SMS cannot be sent, [issue(PHONE, p)] answers with a
    dispatch error, and the table keeps what the two statements before the
    dispatch did: the new record is there, unverified and with no attempt
    counted, and the older records of the destination stay invalidated.
    No statement follows the failed dispatch. *)
Theorem sms_failure_keeps_the_record (cfg : config) (io : issue_io)
    (phone : jsstring) (w : world) (msg : string) :
  Otp.issuable cfg Otp.PHONE phone = true ->
  insert_ok io = true ->
  sms_error io = Some msg ->
  let result := Otp.issue cfg io Otp.PHONE phone w in
  let record := Otp.issued_row Otp.PHONE phone io (next_id w) in
  Otp.DispatchError (fst result)
  /\ Http.details (fst result) = Some msg
  /\ otp_codes (snd result)
     = (if invalidate_ok io
        then Otp.invalidated Otp.PHONE phone (otp_codes w)
        else otp_codes w) ++ [record]
  /\ Db.verified record = false /\ Db.attempts record = Some 0%Z
  /\ (invalidate_ok io = true ->
      forall x, In x (otp_codes (snd result)) ->
                Otp.row_for Otp.PHONE phone x = true ->
                Db.verified x = false -> x = record)
  /\ exists v,
      trace (snd result)
      = trace w ++ [DbUpdate (Otp.invalidation_query Otp.PHONE phone)
                      (Db.SetVerified true);
                    DbInsert v;
                    TwilioSms (formatPhoneNumber phone)
                      (generateOTP (random io))].
Proof.
  intros Hok Hins Hsms result record.
  assert (Htab : otp_codes (snd result) = Otp.issued Otp.PHONE phone io w)
    by (apply issue_table; exact Hok).
  assert (Hrun : Otp.DispatchError (fst result)
                 /\ Http.details (fst result) = Some msg
                 /\ exists v,
                     trace (snd result)
                     = trace w ++ [DbUpdate
                                     (Otp.invalidation_query Otp.PHONE phone)
                                     (Db.SetVerified true);
                                   DbInsert v;
                                   TwilioSms (formatPhoneNumber phone)
                                     (generateOTP (random io))]).
  { subst result. unfold Otp.issue, send_phone_otp.
    unfold Otp.issuable in Hok.
    destruct phone as [|x p]; [discriminate|]. simpl in Hok.
    apply andb_true_iff in Hok as [H1 H2]. rewrite H1, H2.
    run. rewrite Hins, Hsms. simpl negb. simpl orb. cbv iota.
    unfold Otp.DispatchError.
    destruct (invalidate_ok io); simpl; rewrite <- !app_assoc; simpl;
      (split; [auto|]); (split; [reflexivity|]); eexists; reflexivity. }
  destruct Hrun as (Hd & Hm & Ht).
  split; [exact Hd|]. split; [exact Hm|].
  split; [rewrite Htab; unfold Otp.issued; rewrite Hins; reflexivity|].
  split; [reflexivity|]. split; [reflexivity|].
  split; [|exact Ht].
  intros Hinv x Hin Hfor Hv. rewrite Htab in Hin.
  apply (issued_only_pending _ _ _ _ _ Hinv Hin Hfor Hv).
Qed.

Lemma sms_failure_keeps_the_record_witness :
  let result := Otp.issue Sample.development (Sample.sms_down 0 (1#2))
                  Otp.PHONE Sample.mobile Sample.empty in
  Otp.DispatchError (fst result)
  /\ otp_codes (snd result)
     = [Otp.issued_row Otp.PHONE Sample.mobile (Sample.sms_down 0 (1#2)) 1].
Proof.
  pose proof (@sms_failure_keeps_the_record Sample.development
                (Sample.sms_down 0 (1#2)) Sample.mobile Sample.empty
                "unreachable" eq_refl eq_refl eq_refl) as H.
  cbv zeta in H. destruct H as (Hd & _ & Ht & _).
  split; [exact Hd | exact Ht].
Defined.

End IssueTable.

(* ================================================================== *)
(** ** Verifying a code                                                *)
(* ================================================================== *)

Section Verify.
Import Js Server.

(** A request that passes the validation goes on to the lookup. *)
Lemma verify_validated (io : verify_io) (k : Otp.kind) (dest code : jsstring)
    (other : option jsstring) (w : world) :
  dest <> [] -> Otp.six_digits code = true ->
  Otp.verify io k dest code other w
  = find_and_verify io (Otp.kind_name k) code (Otp.dest_filter k dest) w.
Proof.
  intros Hd Hc. unfold Otp.verify, verify_otp.
  pose proof (otp_format_check code) as Hf. rewrite Hc in Hf.
  destruct code as [|c code]; [discriminate|].
  destruct dest as [|d dest]; [congruence|].
  destruct k; cbn [Otp.request body_email body_phone body_otp body_type];
    change (lit "email") with [101; 109; 97; 105; 108]%N;
    change (lit "phone") with [112; 104; 111; 110; 101]%N;
    cbv iota beta zeta.
  - rewrite Hf. reflexivity.
  - rewrite Hf. reflexivity.
Qed.


(** **** The two queries of the handler *)

Lemma holds_dest_filter (k : Otp.kind) (dest : jsstring) (x : Db.otp_row) :
  Db.holds (Otp.dest_filter k dest) x
  = Db.opt_str_eqb (Otp.dest_column k x) (Otp.stored_dest k dest).
Proof. destruct k; reflexivity. Qed.

Lemma satisfies_lookup_query (k : Otp.kind) (dest code : jsstring) (t : Z)
    (x : Db.otp_row) :
  Db.satisfies (Otp.lookup_query k dest code t) x
  = Otp.row_for k dest x && str_eqb (Db.otp_code x) code && Otp.live t x.
Proof.
  unfold Otp.lookup_query, Db.satisfies, Otp.row_for, Otp.live.
  cbn [forallb]. rewrite holds_dest_filter. cbn [Db.holds].
  destruct (Db.opt_str_eqb _ _), (str_eqb (Db.type x) _),
    (str_eqb (Db.otp_code x) code), (Db.verified x), (t <? Db.expires_at x)%Z;
    reflexivity.
Qed.

Lemma satisfies_recent_query (k : Otp.kind) (dest : jsstring)
    (x : Db.otp_row) :
  Db.satisfies (Otp.recent_query k dest) x
  = Otp.row_for k dest x && negb (Db.verified x).
Proof.
  unfold Otp.recent_query, Db.satisfies, Otp.row_for.
  cbn [forallb]. rewrite holds_dest_filter. cbn [Db.holds].
  destruct (Db.opt_str_eqb _ _), (str_eqb (Db.type x) _), (Db.verified x);
    reflexivity.
Qed.

Lemma currentAttempts_succ (m : Db.otp_row) :
  currentAttempts (Db.attempts m) = (Otp.attempts_of m + 1)%Z.
Proof.
  unfold currentAttempts, Otp.attempts_of.
  destruct (Db.attempts m) as [n|]; [|reflexivity].
  destruct (n =? 0)%Z eqn:E; [|reflexivity].
  apply Z.eqb_eq in E. subst n. reflexivity.
Qed.

(** **** The statements, in terms of the tables they read and leave *)

Lemma db_select_latest_eq (ok : bool) (q : list Db.cond) (w : world) :
  db_select_latest ok q w
  = (if ok then Some (Otp.latest q (otp_codes w)) else None,
     emit (DbSelect q) w).
Proof. unfold db_select_latest. destruct ok; reflexivity. Qed.

Lemma db_update_eq (ok : bool) (q : list Db.cond) (p : Db.patch)
    (w : world) :
  db_update ok q p w
  = (ok, if ok
         then set_rows (Db.update_where q p (otp_codes w))
                (emit (DbUpdate q p) w)
         else emit (DbUpdate q p) w).
Proof. unfold db_update. destruct ok; reflexivity. Qed.

(** **** The outcomes of a validated request *)

Section Outcomes.
Variables (io : verify_io) (k : Otp.kind) (dest code : jsstring).
Variables (other : option jsstring) (w : world).
Hypothesis Hdest : dest <> [].
Hypothesis Hcode : Otp.six_digits code = true.
Hypothesis Hlookup : lookup_ok io = true.

Ltac lookup :=
  rewrite verify_validated by assumption;
  unfold find_and_verify, bind, ret;
  rewrite db_select_latest_eq, Hlookup;
  change [Db.EqType (Otp.kind_name k); Db.EqOtpCode code;
          Db.EqVerified false; Db.GtExpiresAt (v_now io);
          Otp.dest_filter k dest]
    with (Otp.lookup_query k dest code (v_now io)).

Lemma verify_no_match :
  Otp.latest (Otp.lookup_query k dest code (v_now io)) (otp_codes w) = [] ->
  fst (Otp.verify io k dest code other w) = Otp.InvalidOrExpired
  /\ next_id (snd (Otp.verify io k dest code other w)) = next_id w
  /\ otp_codes (snd (Otp.verify io k dest code other w))
     = match Otp.latest (Otp.recent_query k dest) (otp_codes w) with
       | m :: _ => if recent_ok io && bump_ok io
                   then Otp.bumped m (otp_codes w) else otp_codes w
       | [] => otp_codes w
       end.
Proof.
  intros Hm. lookup. rewrite Hm. cbv beta iota.
  rewrite db_select_latest_eq.
  change [Db.EqType (Otp.kind_name k); Db.EqVerified false;
          Otp.dest_filter k dest] with (Otp.recent_query k dest).
  cbn [otp_codes emit].
  destruct (recent_ok io);
    [|destruct (Otp.latest (Otp.recent_query k dest) (otp_codes w)); auto].
  destruct (Otp.latest (Otp.recent_query k dest) (otp_codes w)) as [|m rest];
    [auto|].
  rewrite db_update_eq. unfold Otp.bumped. rewrite currentAttempts_succ.
  destruct (bump_ok io); auto.
Qed.


Lemma verify_match_marked (m : Db.otp_row) (rest : list Db.otp_row) :
  Otp.latest (Otp.lookup_query k dest code (v_now io)) (otp_codes w)
  = m :: rest ->
  attempts_exceeded (Db.attempts m) = false ->
  (mark_ok io = true ->
   Otp.Verified (fst (Otp.verify io k dest code other w))
   /\ otp_codes (snd (Otp.verify io k dest code other w))
      = Otp.marked m (otp_codes w))
  /\ (mark_ok io = false ->
      fst (Otp.verify io k dest code other w)
      = Http.fail 500 "Failed to verify code"
      /\ otp_codes (snd (Otp.verify io k dest code other w)) = otp_codes w).
Proof.
  intros Hm He. lookup. rewrite Hm. cbv beta iota. rewrite He.
  rewrite db_update_eq.
  split; intros ->; unfold Otp.Verified; simpl; auto.
Qed.

End Outcomes.

Lemma verify_lookup_fails (io : verify_io) (k : Otp.kind)
    (dest code : jsstring) (other : option jsstring) (w : world) :
  dest <> [] -> Otp.six_digits code = true -> lookup_ok io = false ->
  Otp.verify io k dest code other w
  = (Http.fail 500 "Failed to verify code",
     emit (DbSelect (Otp.lookup_query k dest code (v_now io))) w).
Proof.
  intros Hd Hc H. rewrite verify_validated by assumption.
  unfold find_and_verify, bind, ret.
  rewrite db_select_latest_eq, H. reflexivity.
Qed.

Ltac rejected :=
  eexists; split;
  [reflexivity | unfold Otp.ValidationError; simpl; auto 10].

Lemma send_email_otp_rejects (cfg : config) (io : issue_io) (e : jsstring)
    (w : world) :
  ~ Otp.email_pattern e ->
  exists r, Otp.issue cfg io Otp.EMAIL e w = (r, w) /\ Otp.ValidationError r.
Proof.
  intros Hbad. unfold Otp.issue, send_email_otp.
  destruct e as [|x e]; [rejected|].
  destruct (test emailRegex (x :: e)) eqn:Et; [|rejected].
  apply emailRegex_pattern in Et. contradiction.
Qed.

Lemma verify_otp_rejects_code (io : verify_io) (body : verify_body)
    (w : world) :
  (forall c, body_otp body = Some c -> Otp.six_digits c = false) ->
  exists r, verify_otp io body w = (r, w) /\ Otp.ValidationError r.
Proof.
  intros Hbad. unfold verify_otp.
  destruct (body_otp body) as [[|c code]|]; try rejected.
  destruct (body_type body) as [[|t ty]|]; try rejected.
  cbv zeta.
  destruct (str_eqb (t :: ty) (lit "email")
            && negb (truthy (body_email body))); [rejected|].
  destruct (str_eqb (t :: ty) (lit "phone")
            && negb (truthy (body_phone body))); [rejected|].
  rewrite otp_format_check, (Hbad (c :: code) eq_refl). rejected.
Qed.

Lemma verify_rejects_empty_dest (io : verify_io) (k : Otp.kind)
    (code : jsstring) (other : option jsstring) (w : world) :
  exists r, Otp.verify io k [] code other w = (r, w)
            /\ Otp.ValidationError r.
Proof.
  unfold Otp.verify, verify_otp.
  destruct k, code as [|c code]; simpl; rejected.
Qed.

(** C8: an issuance for an email address that fails the structural
    pattern, and a verification whose code is not exactly six ASCII digits,
    are answered with a validation error, and the world is left as it was:
    no statement reaches the store and no message is sent.  So it is for
    ["not-an-email"], ["12a45"] and ["123"]. *)
Theorem malformed_input_rejected_before_store :
  (forall (cfg : config) (io : issue_io) (e : jsstring) (w : world),
      ~ Otp.email_pattern e ->
      exists r, Otp.issue cfg io Otp.EMAIL e w = (r, w)
                /\ Otp.ValidationError r)
  /\ (forall (io : verify_io) (body : verify_body) (w : world),
         (forall c, body_otp body = Some c -> Otp.six_digits c = false) ->
         exists r, verify_otp io body w = (r, w) /\ Otp.ValidationError r)
  /\ ~ Otp.email_pattern (lit "not-an-email")
  /\ Otp.six_digits (lit "12a45") = false
  /\ Otp.six_digits (lit "123") = false.
Proof.
  split; [exact send_email_otp_rejects|].
  split; [exact verify_otp_rejects_code|].
  split; [|split; reflexivity].
  intros H. apply emailRegex_pattern in H. discriminate H.
Qed.

Lemma malformed_input_rejected_before_store_witness :
  (exists r,
      Otp.issue Sample.development (Sample.at_time 0 (1#2)) Otp.EMAIL
        (lit "not-an-email") Sample.empty = (r, Sample.empty)
      /\ Otp.ValidationError r)
  /\ (exists r,
         verify_otp (Sample.checking 0)
           (Otp.request Otp.EMAIL Sample.alice (lit "12a45") None)
           Sample.empty = (r, Sample.empty)
         /\ Otp.ValidationError r)
  /\ (exists r,
         verify_otp (Sample.checking 0)
           (Otp.request Otp.PHONE Sample.mobile (lit "123") None)
           Sample.empty = (r, Sample.empty)
         /\ Otp.ValidationError r).
Proof.
  destruct malformed_input_rejected_before_store
    as (Hissue & Hverify & Hbad & _).
  split; [|split].
  - apply Hissue. exact Hbad.
  - apply Hverify. intros c E. inversion E. reflexivity.
  - apply Hverify. intros c E. inversion E. reflexivity.
Defined.

End Verify.

(* ================================================================== *)
(** ** Updates of the table                                            *)
(* ================================================================== *)

Section TableUpdates.
Import Js Server.

Lemma holds_set_attempts (c : Db.cond) (n : Z) (x : Db.otp_row) :
  Db.holds c (Db.apply_patch (Db.SetAttempts n) x) = Db.holds c x.
Proof. destruct c; reflexivity. Qed.

Lemma satisfies_set_attempts (q : list Db.cond) (n : Z) (x : Db.otp_row) :
  Db.satisfies q (Db.apply_patch (Db.SetAttempts n) x) = Db.satisfies q x.
Proof.
  unfold Db.satisfies. induction q as [|c q IH]; cbn [forallb];
    [reflexivity|].
  rewrite holds_set_attempts, IH. reflexivity.
Qed.

Lemma map_id_update_where (q : list Db.cond) (p : Db.patch)
    (t : list Db.otp_row) :
  map Db.id (Db.update_where q p t) = map Db.id t.
Proof.
  unfold Db.update_where. rewrite map_map. apply map_ext. intros x.
  destruct (Db.satisfies q x); [destruct p|]; reflexivity.
Qed.

Lemma insert_desc_map (g : Db.otp_row -> Db.otp_row) (r : Db.otp_row)
    (l : list Db.otp_row) :
  (forall x, Db.created_at (g x) = Db.created_at x) ->
  Db.insert_desc (g r) (map g l) = map g (Db.insert_desc r l).
Proof.
  intros Hg. induction l as [|y l IH]; simpl; [reflexivity|].
  rewrite !Hg. destruct (Db.created_at y <=? Db.created_at r)%Z; simpl.
  - reflexivity.
  - rewrite IH. reflexivity.
Qed.

Lemma order_map (g : Db.otp_row -> Db.otp_row) (l : list Db.otp_row) :
  (forall x, Db.created_at (g x) = Db.created_at x) ->
  Db.order_created_at_desc (map g l) = map g (Db.order_created_at_desc l).
Proof.
  intros Hg. induction l as [|y l IH]; simpl; [reflexivity|].
  rewrite IH. apply insert_desc_map, Hg.
Qed.

Lemma select_where_map (g : Db.otp_row -> Db.otp_row) (q : list Db.cond)
    (t : list Db.otp_row) :
  (forall x, Db.satisfies q (g x) = Db.satisfies q x) ->
  Db.select_where q (map g t) = map g (Db.select_where q t).
Proof.
  intros Hg. unfold Db.select_where.
  induction t as [|y t IH]; simpl; [reflexivity|].
  rewrite Hg, IH. destruct (Db.satisfies q y); reflexivity.
Qed.

(** A change of the rows that a query and the order cannot see commutes
    with the lookup. *)
Lemma latest_map (g : Db.otp_row -> Db.otp_row) (q : list Db.cond)
    (t : list Db.otp_row) :
  (forall x, Db.satisfies q (g x) = Db.satisfies q x) ->
  (forall x, Db.created_at (g x) = Db.created_at x) ->
  Otp.latest q (map g t) = map g (Otp.latest q t).
Proof.
  intros Hs Hc. unfold Otp.latest, Db.limit.
  rewrite select_where_map, order_map by assumption.
  apply firstn_map.
Qed.

(** Counting attempts does not change what a lookup finds, up to the
    counter itself. *)
Lemma latest_set_attempts (q q' : list Db.cond) (n : Z)
    (t : list Db.otp_row) :
  Otp.latest q (Db.update_where q' (Db.SetAttempts n) t)
  = Db.update_where q' (Db.SetAttempts n) (Otp.latest q t).
Proof.
  unfold Db.update_where. apply latest_map; intros x;
    destruct (Db.satisfies q' x); try reflexivity;
    apply satisfies_set_attempts.
Qed.




End TableUpdates.

(* ================================================================== *)
(** ** Failed attempts                                                 *)
(* ================================================================== *)

Section FailedAttempts.
Import Js Server.

Lemma map_fixed (g : Db.otp_row -> Db.otp_row) (l : list Db.otp_row) :
  (forall x, In x l -> g x = x) -> map g l = l.
Proof.
  intros H. induction l as [|y l IH]; simpl; [reflexivity|].
  rewrite H by (left; reflexivity). f_equal. apply IH.
  intros x Hx. apply H. right. exact Hx.
Qed.

Lemma satisfies_EqId (i : N) (x : Db.otp_row) :
  Db.satisfies [Db.EqId i] x = N.eqb (Db.id x) i.
Proof. unfold Db.satisfies. simpl. apply andb_true_r. Qed.

(** With unique ids, the statement that counts an attempt changes the
    record it names and no other. *)
Lemma bumped_split (m : Db.otp_row) (l1 l2 : list Db.otp_row) :
  Otp.unique_ids (l1 ++ m :: l2) ->
  Otp.bumped m (l1 ++ m :: l2) = l1 ++ Otp.count_attempt m :: l2.
Proof.
  unfold Otp.unique_ids, Otp.bumped, Db.update_where. intros Hu.
  rewrite map_app in Hu. simpl in Hu.
  apply NoDup_remove_2 in Hu.
  assert (Hother : forall x, In x l1 \/ In x l2 ->
                             N.eqb (Db.id x) (Db.id m) = false).
  { intros x Hx. apply N.eqb_neq. intros E. apply Hu.
    apply in_or_app. rewrite <- E.
    destruct Hx as [Hx|Hx]; [left|right]; apply in_map; exact Hx. }
  rewrite map_app. cbn [map]. rewrite satisfies_EqId, N.eqb_refl.
  rewrite !map_fixed; [reflexivity| |];
    intros x Hx; rewrite satisfies_EqId, Hother; auto.
Qed.

(** The lookup finds nothing exactly when every record of the destination
    that bears the submitted code is verified or expired. *)
Lemma no_live_match (k : Otp.kind) (dest code : jsstring) (t : Z)
    (rows : list Db.otp_row) :
  Otp.latest (Otp.lookup_query k dest code t) rows = [] <->
  (forall x, In x rows -> Otp.row_for k dest x = true ->
             Db.otp_code x = code -> Otp.live t x = false).
Proof.
  rewrite latest_nil_iff. split; intros H x Hx.
  - intros Hfor Hc. specialize (H x Hx).
    rewrite satisfies_lookup_query, Hfor in H.
    apply str_eqb_eq in Hc. rewrite Hc in H. exact H.
  - rewrite satisfies_lookup_query.
    destruct (Otp.row_for k dest x) eqn:Hfor; [|reflexivity].
    destruct (str_eqb (Db.otp_code x) code) eqn:Hc; [|reflexivity].
    apply str_eqb_eq in Hc. simpl. auto.
Qed.

(** What the lookup of the most recent unverified record returns. *)
Lemma recent_pending (k : Otp.kind) (dest : jsstring)
    (rows : list Db.otp_row) (m : Db.otp_row) (rest : list Db.otp_row) :
  Otp.latest (Otp.recent_query k dest) rows = m :: rest ->
  rest = [] /\ In m rows /\ Otp.row_for k dest m = true
  /\ Db.verified m = false
  /\ forall x, In x rows -> Otp.row_for k dest x = true ->
               Db.verified x = false ->
               (Db.created_at x <= Db.created_at m)%Z.
Proof.
  intros H. apply latest_cons in H as (Hr & Hin & Hs & Hmax).
  rewrite satisfies_recent_query in Hs.
  apply andb_true_iff in Hs as [Hfor Hv]. apply negb_true_iff in Hv.
  repeat split; auto.
  intros x Hx Hxf Hxv. apply Hmax; [exact Hx|].
  rewrite satisfies_recent_query, Hxf, Hxv. reflexivity.
Qed.

Lemma no_pending (k : Otp.kind) (dest : jsstring) (rows : list Db.otp_row) :
  Otp.latest (Otp.recent_query k dest) rows = [] <->
  (forall x, In x rows -> Otp.row_for k dest x = true ->
             Db.verified x = true).
Proof.
  rewrite latest_nil_iff. split; intros H x Hx.
  - intros Hfor. specialize (H x Hx).
    rewrite satisfies_recent_query, Hfor in H.
    destruct (Db.verified x); [reflexivity | discriminate].
  - rewrite satisfies_recent_query.
    destruct (Otp.row_for k dest x) eqn:Hfor; [|reflexivity].
    rewrite (H x Hx Hfor). reflexivity.
Qed.

(** C5: a verification whose well-formed code matches no live record of
    the destination is answered [InvalidOrExpired], whether or not the
    attempt could be recorded.  If the destination has an unverified record,
    the most recent of them has its attempts counter raised by exactly 1 and
    nothing else in the table changes; if the statements that record the
    attempt fail, or there is no unverified record, the table is left as it
    was and the answer is the same. *)
Theorem failed_attempt_is_counted (io : verify_io) (k : Otp.kind)
    (dest code : jsstring) (other : option jsstring) (w : world) :
  dest <> [] ->
  Otp.six_digits code = true ->
  lookup_ok io = true ->
  (forall x, In x (otp_codes w) -> Otp.row_for k dest x = true ->
             Db.otp_code x = code -> Otp.live (v_now io) x = false) ->
  let result := Otp.verify io k dest code other w in
  fst result = Otp.InvalidOrExpired
  /\ ((exists x, In x (otp_codes w) /\ Otp.row_for k dest x = true
                 /\ Db.verified x = false) ->
      exists m,
        In m (otp_codes w) /\ Otp.row_for k dest m = true
        /\ Db.verified m = false
        /\ (forall x, In x (otp_codes w) -> Otp.row_for k dest x = true ->
                      Db.verified x = false ->
                      (Db.created_at x <= Db.created_at m)%Z)
        /\ Otp.attempts_of (Otp.count_attempt m)
           = (Otp.attempts_of m + 1)%Z
        /\ (recent_ok io = true -> bump_ok io = true ->
            Otp.unique_ids (otp_codes w) ->
            exists l1 l2,
              otp_codes w = l1 ++ m :: l2
              /\ otp_codes (snd result) = l1 ++ Otp.count_attempt m :: l2)
        /\ (recent_ok io = false \/ bump_ok io = false ->
            otp_codes (snd result) = otp_codes w))
  /\ ((forall x, In x (otp_codes w) -> Otp.row_for k dest x = true ->
                 Db.verified x = true) ->
      otp_codes (snd result) = otp_codes w).
Proof.
  intros Hd Hc Hl Hnone result.
  apply no_live_match in Hnone.
  destruct (@verify_no_match io k dest code other w Hd Hc Hl Hnone)
    as (Hresp & _ & Hrows).
  fold result in Hresp, Hrows.
  split; [exact Hresp|]. split.
  - intros (x & Hx & Hxf & Hxv).
    destruct (Otp.latest (Otp.recent_query k dest) (otp_codes w))
      as [|m rest] eqn:E.
    + rewrite no_pending in E. rewrite (E x Hx Hxf) in Hxv. discriminate.
    + destruct (recent_pending _ _ _ E) as (-> & Hin & Hfor & Hv & Hmax).
      exists m. repeat (split; [assumption || reflexivity|]). split.
      * intros Hr Hb Hu. rewrite Hr, Hb in Hrows. simpl in Hrows.
        destruct (in_split _ _ Hin) as (l1 & l2 & Hsplit).
        exists l1, l2. split; [exact Hsplit|].
        rewrite Hrows, Hsplit. apply bumped_split.
        rewrite <- Hsplit. exact Hu.
      * intros Hfail. rewrite Hrows.
        destruct Hfail as [-> | ->]; [reflexivity|].
        rewrite andb_false_r. reflexivity.
  - intros Hall. apply no_pending in Hall. rewrite Hall in Hrows.
    exact Hrows.
Qed.


Lemma failed_attempt_is_counted_witness :
  let result := Otp.verify (Sample.checking 1000) Otp.EMAIL Sample.alice
                  (lit "123456") None Sample.issued_once in
  fst result = Otp.InvalidOrExpired
  /\ exists m l1 l2,
      otp_codes Sample.issued_once = l1 ++ m :: l2
      /\ otp_codes (snd result) = l1 ++ Otp.count_attempt m :: l2
      /\ Otp.attempts_of (Otp.count_attempt m) = (Otp.attempts_of m + 1)%Z.
Proof.
  destruct (@failed_attempt_is_counted (Sample.checking 1000) Otp.EMAIL
              Sample.alice (lit "123456") None Sample.issued_once)
    as (Hresp & Hcount & _).
  - discriminate.
  - reflexivity.
  - reflexivity.
  - intros x [<-|[]] _ Hc. vm_compute in Hc. discriminate Hc.
  - split; [exact Hresp|].
    destruct Hcount as (m & _ & _ & _ & _ & Hplus & Hrows & _).
    + eexists. split; [left; reflexivity|]. split; reflexivity.
    + destruct Hrows as (l1 & l2 & Hsplit & Hafter).
      * reflexivity.
      * reflexivity.
      * unfold Otp.unique_ids. simpl. constructor; [intros [] | constructor].
      * exists m, l1, l2. auto.
Defined.

(** **** Several failed attempts in a row *)

Lemma set_attempts_twice (i : N) (a b : Z) (rows : list Db.otp_row) :
  Db.update_where [Db.EqId i] (Db.SetAttempts b)
    (Db.update_where [Db.EqId i] (Db.SetAttempts a) rows)
  = Db.update_where [Db.EqId i] (Db.SetAttempts b) rows.
Proof.
  unfold Db.update_where. rewrite map_map. apply map_ext. intros x.
  rewrite !satisfies_EqId.
  destruct (N.eqb (Db.id x) i) eqn:E;
    cbn [Db.apply_patch Db.id]; rewrite ?E; reflexivity.
Qed.

Lemma missed_after_bump (k : Otp.kind) (dest : jsstring) (i : N) (a : Z)
    (rows : list Db.otp_row) (call : verify_io * jsstring) :
  Otp.missed k dest rows call ->
  Otp.missed k dest (Db.update_where [Db.EqId i] (Db.SetAttempts a) rows)
    call.
Proof.
  unfold Otp.missed. intros (H1 & H2 & H3 & H4 & H5).
  repeat (split; [assumption|]).
  apply no_live_match. rewrite latest_set_attempts.
  apply no_live_match in H5. rewrite H5. reflexivity.
Qed.

Lemma verify_each_missed (k : Otp.kind) (dest : jsstring)
    (other : option jsstring) (calls : list (verify_io * jsstring)) :
  dest <> [] ->
  forall (w : world) (m : Db.otp_row),
    Otp.latest (Otp.recent_query k dest) (otp_codes w) = [m] ->
    Forall (Otp.missed k dest (otp_codes w)) calls ->
    fst (Otp.verify_each k dest other calls w)
    = repeat Otp.InvalidOrExpired (List.length calls)
    /\ otp_codes (snd (Otp.verify_each k dest other calls w))
       = match calls with
         | [] => otp_codes w
         | _ :: _ =>
             Db.update_where [Db.EqId (Db.id m)]
               (Db.SetAttempts
                  (Otp.attempts_of m + Z.of_nat (List.length calls)))
               (otp_codes w)
         end.
Proof.
  intros Hd. induction calls as [|[io c] calls IH]; intros w m Hm Hall.
  - simpl. auto.
  - inversion Hall as [|? ? Hcall Hrest]; subst.
    destruct Hcall as (Hc & Hl & Hr & Hb & Hnone). simpl in Hc, Hl, Hr, Hb.
    apply no_live_match in Hnone.
    destruct (@verify_no_match io k dest c other w Hd Hc Hl Hnone)
      as (Hresp & _ & Hrows).
    rewrite Hm, Hr, Hb in Hrows. simpl in Hrows.
    cbn [Otp.verify_each].
    destruct (Otp.verify io k dest c other w) as [r w1] eqn:E.
    simpl in Hresp, Hrows. subst r.
    assert (Hm1 : Otp.latest (Otp.recent_query k dest) (otp_codes w1)
                  = [Otp.count_attempt m]).
    { rewrite Hrows. unfold Otp.bumped. rewrite latest_set_attempts, Hm.
      unfold Db.update_where. cbn [map].
      rewrite satisfies_EqId, N.eqb_refl. reflexivity. }
    assert (Hall1 : Forall (Otp.missed k dest (otp_codes w1)) calls).
    { rewrite Hrows. unfold Otp.bumped.
      eapply Forall_impl; [|exact Hrest].
      intros call. apply missed_after_bump. }
    destruct (IH w1 (Otp.count_attempt m) Hm1 Hall1) as (Hrs & Hfinal).
    destruct (Otp.verify_each k dest other calls w1) as [rs w2].
    simpl in Hrs, Hfinal. simpl. split; [rewrite Hrs; reflexivity|].
    rewrite Hfinal, Hrows. unfold Otp.bumped.
    destruct calls as [|call calls]; [reflexivity|].
    change (Db.id (Otp.count_attempt m)) with (Db.id m).
    rewrite set_attempts_twice.
    change (Otp.attempts_of (Otp.count_attempt m))
      with (Otp.attempts_of m + 1)%Z.
    f_equal. f_equal. cbn [List.length]. lia.
Qed.

End FailedAttempts.

(* ================================================================== *)
(** ** The attempt limit                                               *)
(* ================================================================== *)

Section AttemptLimit.
Import Js Server.

Lemma not_validation_MaxAttemptsExceeded :
  ~ Otp.ValidationError Otp.MaxAttemptsExceeded.
Proof.
  unfold Otp.ValidationError, Otp.MaxAttemptsExceeded. simpl.
  intuition discriminate.
Qed.

(** The record that a successful lookup returns. *)
Lemma matched_record (k : Otp.kind) (dest code : jsstring) (t : Z)
    (rows : list Db.otp_row) (m : Db.otp_row) (rest : list Db.otp_row) :
  Otp.latest (Otp.lookup_query k dest code t) rows = m :: rest ->
  In m rows /\ Otp.row_for k dest m = true /\ Db.otp_code m = code
  /\ Otp.live t m = true.
Proof.
  intros H. apply latest_cons in H as (_ & Hin & Hs & _).
  rewrite satisfies_lookup_query in Hs.
  apply andb_true_iff in Hs as [Hs Hlive].
  apply andb_true_iff in Hs as [Hfor Hc]. apply str_eqb_eq in Hc. auto.
Qed.


Lemma recent_finds (k : Otp.kind) (dest : jsstring)
    (rows : list Db.otp_row) (m : Db.otp_row) :
  In m rows -> Otp.row_for k dest m = true -> Db.verified m = false ->
  (forall x, In x rows -> Otp.row_for k dest x = true ->
             Db.verified x = false ->
             x = m \/ (Db.created_at x < Db.created_at m)%Z) ->
  Otp.latest (Otp.recent_query k dest) rows = [m].
Proof.
  intros Hin Hfor Hv Hmax. apply latest_unique; [exact Hin| |].
  - rewrite satisfies_recent_query, Hfor, Hv. reflexivity.
  - intros x Hx Hs. rewrite satisfies_recent_query in Hs.
    apply andb_true_iff in Hs as [Hxf Hxv]. apply negb_true_iff in Hxv.
    auto.
Qed.

(** [MaxAttemptsExceeded] is only ever the answer to a code that matches
    a live record. *)
Lemma max_attempts_only_on_match (io : verify_io) (k : Otp.kind)
    (dest code : jsstring) (other : option jsstring) (w : world) :
  fst (Otp.verify io k dest code other w) = Otp.MaxAttemptsExceeded ->
  exists m, In m (otp_codes w) /\ Otp.row_for k dest m = true
            /\ Db.otp_code m = code /\ Otp.live (v_now io) m = true
            /\ attempts_exceeded (Db.attempts m) = true.
Proof.
  intros H.
  destruct dest as [|d dest].
  { destruct (verify_rejects_empty_dest io k code other w) as (r & E & Hr).
    rewrite E in H. simpl in H. subst r.
    destruct (not_validation_MaxAttemptsExceeded Hr). }
  destruct (Otp.six_digits code) eqn:Hc.
  2:{ destruct (@verify_otp_rejects_code io
                  (Otp.request k (d :: dest) code other) w) as (r & E & Hr).
      { intros c Ec. destruct k; inversion Ec; subst; exact Hc. }
      unfold Otp.verify in H. rewrite E in H. simpl in H. subst r.
      destruct (not_validation_MaxAttemptsExceeded Hr). }
  assert (Hd : d :: dest <> []) by discriminate.
  destruct (lookup_ok io) eqn:Hl.
  2:{ rewrite verify_lookup_fails in H by assumption. discriminate H. }
  destruct (Otp.latest (Otp.lookup_query k (d :: dest) code (v_now io))
              (otp_codes w)) as [|m rest] eqn:Em.
  { destruct (@verify_no_match io k (d :: dest) code other w Hd Hc Hl Em)
      as (Hr & _). rewrite Hr in H. discriminate H. }
  destruct (attempts_exceeded (Db.attempts m)) eqn:He.
  - destruct (matched_record _ _ _ _ _ Em) as (Hin & Hfor & Hcode & Hlive).
    exists m. auto.
  - destruct (@verify_match_marked io k (d :: dest) code other w Hd Hc Hl
                m rest Em He) as [Hok Hfail].
    destruct (mark_ok io).
    + destruct (Hok eq_refl) as ((Hs & _) & _). rewrite H in Hs.
      discriminate Hs.
    + destruct (Hfail eq_refl) as (Hr & _). rewrite Hr in H.
      discriminate H.
Qed.

(** C10: [MaxAttemptsExceeded] is reached only with a code that matches a
    live record.  A code that matches no live record, sent to a destination
    whose most recent unverified record already has five or more attempts,
    is answered [InvalidOrExpired] and still raises that counter by one; so
    after any number of such calls the counter has grown by that number,
    without bound. *)
Theorem attempts_grow_past_the_limit :
  (forall (io : verify_io) (k : Otp.kind) (dest code : jsstring)
          (other : option jsstring) (w : world),
      fst (Otp.verify io k dest code other w) = Otp.MaxAttemptsExceeded ->
      exists m, In m (otp_codes w) /\ Otp.row_for k dest m = true
                /\ Db.otp_code m = code /\ Otp.live (v_now io) m = true
                /\ attempts_exceeded (Db.attempts m) = true)
  /\ (forall (k : Otp.kind) (dest : jsstring) (other : option jsstring)
             (w : world) (m : Db.otp_row) (n : Z)
             (calls : list (verify_io * jsstring)),
         dest <> [] ->
         In m (otp_codes w) -> Otp.row_for k dest m = true ->
         Db.verified m = false ->
         (forall x, In x (otp_codes w) -> Otp.row_for k dest x = true ->
                    Db.verified x = false ->
                    x = m \/ (Db.created_at x < Db.created_at m)%Z) ->
         Db.attempts m = Some n -> (MAX_OTP_ATTEMPTS <= n)%Z ->
         Forall (Otp.missed k dest (otp_codes w)) calls ->
         let result := Otp.verify_each k dest other calls w in
         Forall (fun r => r = Otp.InvalidOrExpired
                          /\ r <> Otp.MaxAttemptsExceeded) (fst result)
         /\ List.length (fst result) = List.length calls
         /\ exists m',
             Otp.latest (Otp.recent_query k dest) (otp_codes (snd result))
             = [m']
             /\ Db.id m' = Db.id m
             /\ Otp.attempts_of m' = (n + Z.of_nat (List.length calls))%Z).
Proof.
  split; [exact max_attempts_only_on_match|].
  intros k dest other w m n calls Hd Hin Hfor Hv Hmax Hn Hge Hall result.
  pose proof (recent_finds _ _ _ Hin Hfor Hv Hmax) as Hm.
  destruct (@verify_each_missed k dest other calls Hd w m Hm Hall)
    as (Hrs & Hrows).
  fold result in Hrs, Hrows.
  split; [|split].
  - rewrite Hrs. clear. induction (List.length calls) as [|j IH]; simpl.
    + constructor.
    + constructor; [split; [reflexivity | discriminate] | exact IH].
  - rewrite Hrs. apply repeat_length.
  - rewrite Hrows. destruct calls as [|call calls].
    + exists m. split; [exact Hm|]. split; [reflexivity|].
      unfold Otp.attempts_of. rewrite Hn. simpl. lia.
    + rewrite latest_set_attempts, Hm. unfold Db.update_where. cbn [map].
      rewrite satisfies_EqId, N.eqb_refl.
      eexists. split; [reflexivity|]. split; [reflexivity|].
      unfold Otp.attempts_of at 1. cbn [Db.apply_patch Db.attempts].
      unfold Otp.attempts_of. rewrite Hn. reflexivity.
Qed.


Lemma exhausted_table : otp_codes Sample.exhausted = [Sample.exhausted_record].
Proof. vm_compute. reflexivity. Qed.

Lemma attempts_grow_past_the_limit_witness :
  (exists m, In m (otp_codes Sample.exhausted)
             /\ Db.otp_code m = lit "550000"
             /\ attempts_exceeded (Db.attempts m) = true)
  /\ let result := Otp.verify_each Otp.EMAIL Sample.alice None
                     Sample.two_more_guesses Sample.exhausted in
     Forall (fun r => r = Otp.InvalidOrExpired
                      /\ r <> Otp.MaxAttemptsExceeded) (fst result)
     /\ List.length (fst result) = 2%nat
     /\ exists m',
         Otp.latest (Otp.recent_query Otp.EMAIL Sample.alice)
           (otp_codes (snd result)) = [m']
         /\ Db.id m' = 1%N
         /\ Otp.attempts_of m' = 7%Z.
Proof.
  destruct attempts_grow_past_the_limit as [Hmax Hgrow].
  split.
  - destruct (Hmax (Sample.checking 8000) Otp.EMAIL Sample.alice
                (lit "550000") None Sample.exhausted eq_refl)
      as (m & Hin & _ & Hc & _ & He).
    exists m. auto.
  - apply (Hgrow Otp.EMAIL Sample.alice None Sample.exhausted
             Sample.exhausted_record 5%Z Sample.two_more_guesses).
    + discriminate.
    + rewrite exhausted_table. left. reflexivity.
    + reflexivity.
    + reflexivity.
    + intros x Hx _ _. rewrite exhausted_table in Hx.
      destruct Hx as [<-|[]]. left. reflexivity.
    + reflexivity.
    + unfold MAX_OTP_ATTEMPTS. lia.
    + rewrite exhausted_table.
      repeat constructor; simpl;
        intros x [<-|[]] _ Hc; vm_compute in Hc; discriminate Hc.
Defined.

End AttemptLimit.

(* ================================================================== *)
(** ** The table right after an issuance                               *)
(* ================================================================== *)

Section AfterIssue.
Import Js Server.

Lemma issuable_nonempty (cfg : config) (k : Otp.kind) (dest : jsstring) :
  Otp.issuable cfg k dest = true -> dest <> [].
Proof. intros H ->. destruct k; discriminate H. Qed.







End AfterIssue.

(* ================================================================== *)
(** ** The sixth attempt                                               *)
(* ================================================================== *)

Section SixthAttempt.
Import Js Server.




End SixthAttempt.

(* ================================================================== *)
(** ** Only live records verify                                        *)
(* ================================================================== *)

Section LiveOnly.
Import Js Server.





Lemma issued_one_pending (k : Otp.kind) (dest : jsstring) (io : issue_io)
    (w : world) :
  invalidate_ok io = true -> Otp.one_pending k dest (Otp.issued k dest io w).
Proof.
  intros Hinv x y Hx Hy Hxf Hyf Hxv Hyv.
  destruct (@issued_only_pending k dest io w x Hinv Hx Hxf Hxv) as [_ ->].
  destruct (@issued_only_pending k dest io w y Hinv Hy Hyf Hyv) as [_ ->].
  reflexivity.
Qed.


(** A code borne only by verified or expired records of the destination
    is answered [InvalidOrExpired]. *)
Lemma dead_code_rejected (io : verify_io) (k : Otp.kind)
    (dest code : jsstring) (other : option jsstring) (w : world) :
  dest <> [] -> Otp.six_digits code = true -> lookup_ok io = true ->
  (forall x, In x (otp_codes w) -> Otp.row_for k dest x = true ->
             Db.otp_code x = code ->
             Db.verified x = true \/ (Db.expires_at x <= v_now io)%Z) ->
  fst (Otp.verify io k dest code other w) = Otp.InvalidOrExpired.
Proof.
  intros Hd Hc Hl Hdead.
  apply (@verify_no_match io k dest code other w Hd Hc Hl).
  apply no_live_match. intros x Hx Hfor Hcode. unfold Otp.live.
  destruct (Hdead x Hx Hfor Hcode) as [->|Hexp]; [reflexivity|].
  apply Z.ltb_ge in Hexp. rewrite Hexp. apply andb_false_r.
Qed.



End LiveOnly.

(* ================================================================== *)
(** ** Issue, then verify                                              *)
(* ================================================================== *)

Section RoundTrip.
Import Js Server.






End RoundTrip.

(* ================================================================== *)
(** ** Issuing again                                                   *)
(* ================================================================== *)

Section Reissue.
Import Js Server.




End Reissue.

(* ================================================================== *)
(** ** Ids stay unique                                                 *)
(* ================================================================== *)

Section Ids.
Import Js Server.

Lemma well_formed_same_ids (w w' : world) :
  map Db.id (otp_codes w') = map Db.id (otp_codes w) ->
  next_id w' = next_id w ->
  Otp.well_formed w -> Otp.well_formed w'.
Proof.
  unfold Otp.well_formed, Otp.unique_ids. intros Hids Hnext [Hu Hlt].
  rewrite Hids, Hnext. split; [exact Hu|].
  intros x Hx. apply (in_map Db.id) in Hx. rewrite Hids in Hx.
  apply in_map_iff in Hx as (y & <- & Hy). apply Hlt. exact Hy.
Qed.

Lemma well_formed_insert (w w' : world) (rows : list Db.otp_row)
    (r : Db.otp_row) :
  otp_codes w' = rows ++ [r] ->
  next_id w' = N.succ (next_id w) ->
  map Db.id rows = map Db.id (otp_codes w) ->
  Db.id r = next_id w ->
  Otp.well_formed w -> Otp.well_formed w'.
Proof.
  unfold Otp.well_formed, Otp.unique_ids.
  intros Hrows Hnext Hids Hr [Hu Hlt]. rewrite Hrows, Hnext.
  assert (Hold : forall x, In x rows -> (Db.id x < next_id w)%N).
  { intros x Hx. apply (in_map Db.id) in Hx. rewrite Hids in Hx.
    apply in_map_iff in Hx as (y & <- & Hy). apply Hlt. exact Hy. }
  split.
  - rewrite map_app. simpl. apply NoDup_app.
    + rewrite Hids. exact Hu.
    + constructor; [intros [] | constructor].
    + intros i Hi [<-|[]]. apply in_map_iff in Hi as (x & E & Hx).
      specialize (Hold x Hx). rewrite E, Hr in Hold. lia.
  - intros x Hx. apply in_app_or in Hx as [Hx|[<-|[]]].
    + specialize (Hold x Hx). lia.
    + rewrite Hr. lia.
Qed.

Ltac keeps_ids H :=
  first
    [ exact H
    | eapply well_formed_same_ids; [ | | exact H];
      [ simpl; rewrite ?map_id_update_where; reflexivity | reflexivity ]
    | eapply well_formed_insert; [ | | | | exact H];
      [ simpl; reflexivity | reflexivity
      | rewrite ?map_id_update_where; reflexivity | reflexivity ] ].

Lemma send_email_otp_well_formed (cfg : config) (io : issue_io)
    (email : option jsstring) (w : world) :
  Otp.well_formed w -> Otp.well_formed (snd (send_email_otp cfg io email w)).
Proof.
  intros H. unfold send_email_otp.
  destruct email as [[|x e]|]; try exact H.
  destruct (test emailRegex (x :: e)); [|exact H].
  run. simpl negb. cbv iota.
  destruct (invalidate_ok io), (insert_ok io);
    destruct (truthy (sendGridApiKey cfg)), (mail_ok io),
      (env_is cfg "production"); keeps_ids H.
Qed.

Lemma send_phone_otp_well_formed (cfg : config) (io : issue_io)
    (phone : option jsstring) (w : world) :
  Otp.well_formed w -> Otp.well_formed (snd (send_phone_otp cfg io phone w)).
Proof.
  intros H. unfold send_phone_otp.
  destruct phone as [[|x p]|]; try exact H.
  destruct (negb (twilioClient cfg) || negb (truthy (twilioPhoneNumber cfg)));
    [exact H|].
  run.
  destruct (invalidate_ok io), (insert_ok io); destruct (sms_error io);
    keeps_ids H.
Qed.

Lemma find_and_verify_well_formed (io : verify_io) (type otp : jsstring)
    (dest : Db.cond) (w : world) :
  Otp.well_formed w ->
  Otp.well_formed (snd (find_and_verify io type otp dest w)).
Proof.
  intros H. unfold find_and_verify, bind, ret.
  rewrite db_select_latest_eq.
  destruct (lookup_ok io); [|keeps_ids H].
  destruct (Otp.latest _ (otp_codes w)) as [|m rest].
  - rewrite db_select_latest_eq.
    destruct (recent_ok io); [|keeps_ids H].
    destruct (Otp.latest _ _) as [|r rest]; [keeps_ids H|].
    rewrite db_update_eq. destruct (bump_ok io); keeps_ids H.
  - destruct (attempts_exceeded (Db.attempts m)); [keeps_ids H|].
    rewrite db_update_eq. destruct (mark_ok io); keeps_ids H.
Qed.

Lemma verify_otp_well_formed (io : verify_io) (body : verify_body)
    (w : world) :
  Otp.well_formed w -> Otp.well_formed (snd (verify_otp io body w)).
Proof.
  intros H. unfold verify_otp.
  destruct (body_otp body) as [[|c code]|]; try exact H.
  destruct (body_type body) as [[|t ty]|]; try exact H.
  cbv zeta.
  destruct (str_eqb (t :: ty) (lit "email") && _); [exact H|].
  destruct (str_eqb (t :: ty) (lit "phone") && _); [exact H|].
  destruct (negb _ || negb _); [exact H|].
  apply find_and_verify_well_formed. exact H.
Qed.

(** In every world that the endpoints reach from an empty table the ids
    are unique. *)
Lemma reachable_well_formed (w : world) :
  Otp.reachable w -> Otp.well_formed w.
Proof.
  induction 1 as [i tr|cfg io email w _ IH|cfg io phone w _ IH
                 |io body w _ IH].
  - split; [constructor | intros x []].
  - apply send_email_otp_well_formed, IH.
  - apply send_phone_otp_well_formed, IH.
  - apply verify_otp_well_formed, IH.
Qed.

End Ids.

(* ================================================================== *)
(** ** What a verification does to the table                           *)
(* ================================================================== *)

Section VerifyTable.
Import Js Server.

(** Every run of the lookup part leaves the table as it was, or has
    counted an attempt on one of its records, or has flagged one of its
    records that was unverified and below the attempt limit. *)
Lemma find_and_verify_table (io : verify_io) (type otp : jsstring)
    (dest : Db.cond) (w : world) :
  let w' := snd (find_and_verify io type otp dest w) in
  next_id w' = next_id w
  /\ (otp_codes w' = otp_codes w
      \/ exists m, In m (otp_codes w)
           /\ (otp_codes w' = Otp.bumped m (otp_codes w)
               \/ (otp_codes w' = Otp.marked m (otp_codes w)
                   /\ Db.verified m = false
                   /\ attempts_exceeded (Db.attempts m) = false))).
Proof.
  unfold find_and_verify, bind, ret. rewrite db_select_latest_eq.
  destruct (lookup_ok io); [|simpl; auto].
  destruct (Otp.latest _ (otp_codes w)) as [|m rest] eqn:Em.
  - cbv beta iota. rewrite db_select_latest_eq. cbn [otp_codes emit].
    destruct (recent_ok io); [|simpl; auto].
    destruct (Otp.latest [Db.EqType type; Db.EqVerified false; dest]
                (otp_codes w)) as [|r rest] eqn:Er;
      [simpl; auto|].
    cbv beta iota. rewrite db_update_eq. rewrite currentAttempts_succ.
    destruct (bump_ok io); [|simpl; auto].
    apply latest_cons in Er as (_ & Hin & _).
    simpl. split; [reflexivity|]. right. exists r. auto.
  - cbv beta iota.
    destruct (attempts_exceeded (Db.attempts m)) eqn:He; [simpl; auto|].
    rewrite db_update_eq.
    destruct (mark_ok io); [|simpl; auto].
    apply latest_cons in Em as (_ & Hin & Hs & _).
    simpl. split; [reflexivity|]. right. exists m.
    split; [exact Hin|]. right. split; [reflexivity|]. split; [|exact He].
    unfold Db.satisfies in Hs. cbn [forallb Db.holds] in Hs.
    apply andb_true_iff in Hs as [_ Hs].
    apply andb_true_iff in Hs as [_ Hs].
    apply andb_true_iff in Hs as [Hs _].
    destruct (Db.verified m); [discriminate Hs | reflexivity].
Qed.

Lemma verify_otp_table (io : verify_io) (body : verify_body) (w : world) :
  let w' := snd (verify_otp io body w) in
  next_id w' = next_id w
  /\ (otp_codes w' = otp_codes w
      \/ exists m, In m (otp_codes w)
           /\ (otp_codes w' = Otp.bumped m (otp_codes w)
               \/ (otp_codes w' = Otp.marked m (otp_codes w)
                   /\ Db.verified m = false
                   /\ attempts_exceeded (Db.attempts m) = false))).
Proof.
  unfold verify_otp.
  destruct (body_otp body) as [[|c code]|]; try solve [simpl; auto].
  destruct (body_type body) as [[|t ty]|]; try solve [simpl; auto].
  cbv zeta.
  destruct (str_eqb (t :: ty) (lit "email") && _); [simpl; auto|].
  destruct (str_eqb (t :: ty) (lit "phone") && _); [simpl; auto|].
  destruct (negb _ || negb _); [simpl; auto|].
  apply find_and_verify_table.
Qed.

Lemma Forall2_map_self (R : Db.otp_row -> Db.otp_row -> Prop)
    (g : Db.otp_row -> Db.otp_row) (l : list Db.otp_row) :
  (forall x, In x l -> R x (g x)) -> Forall2 R l (map g l).
Proof.
  induction l as [|y l IH]; intros H; simpl; constructor.
  - apply H. left. reflexivity.
  - apply IH. intros x Hx. apply H. right. exact Hx.
Qed.

Lemma same_record_refl (x : Db.otp_row) : Life.same_record x x.
Proof. unfold Life.same_record. auto 10. Qed.

Lemma same_record_patch (p : Db.patch) (x : Db.otp_row) :
  Life.same_record x (Db.apply_patch p x).
Proof. destruct p; unfold Life.same_record; simpl; auto 10. Qed.

Lemma same_record_update_where (q : list Db.cond) (p : Db.patch)
    (rows : list Db.otp_row) :
  Forall2 Life.same_record rows (Db.update_where q p rows).
Proof.
  unfold Db.update_where. apply Forall2_map_self. intros x _.
  destruct (Db.satisfies q x);
    [apply same_record_patch | apply same_record_refl].
Qed.

(** X4: a verification neither adds nor removes a record, nor changes to
    whom a record belongs, its code or its expiry: whatever the request and
    whatever the store answers, the table after it has the same records in
    the same order, equal in every column but [verified] and [attempts],
    and no id has been drawn. *)
Theorem verify_keeps_the_records (io : verify_io) (body : verify_body)
    (w : world) :
  Forall2 Life.same_record (otp_codes w)
    (otp_codes (snd (verify_otp io body w)))
  /\ List.length (otp_codes (snd (verify_otp io body w)))
     = List.length (otp_codes w)
  /\ next_id (snd (verify_otp io body w)) = next_id w.
Proof.
  destruct (verify_otp_table io body w) as (Hnext & Hrows).
  assert (H : Forall2 Life.same_record (otp_codes w)
                (otp_codes (snd (verify_otp io body w)))).
  { destruct Hrows as [->|(m & _ & [->|(-> & _)])].
    - rewrite <- (map_id (otp_codes w)) at 2.
      apply Forall2_map_self. intros x _. apply same_record_refl.
    - apply same_record_update_where.
    - apply same_record_update_where. }
  split; [exact H|]. split; [|exact Hnext].
  symmetry. apply (Forall2_length H).
Qed.

End VerifyTable.

(* ================================================================== *)
(** ** Records only advance                                            *)
(* ================================================================== *)

Section Advance.
Import Js Server.

Lemma unique_row (rows : list Db.otp_row) (x y : Db.otp_row) :
  Otp.unique_ids rows -> In x rows -> In y rows -> Db.id x = Db.id y ->
  x = y.
Proof.
  unfold Otp.unique_ids.
  induction rows as [|r rows IH]; simpl; intros Hu Hx Hy E; [destruct Hx|].
  inversion Hu as [|? ? Hnot Hrest]; subst.
  destruct Hx as [<-|Hx], Hy as [<-|Hy].
  - reflexivity.
  - destruct Hnot. rewrite E. apply in_map. exact Hy.
  - destruct Hnot. rewrite <- E. apply in_map. exact Hx.
  - apply IH; assumption.
Qed.

Lemma advances_refl (x : Db.otp_row) : Life.advances x x.
Proof.
  unfold Life.advances. split; [apply same_record_refl|]. split; [auto|lia].
Qed.

Lemma advances_flag (x : Db.otp_row) :
  Life.advances x (Db.apply_patch (Db.SetVerified true) x).
Proof.
  unfold Life.advances. split; [apply same_record_patch|].
  split; [reflexivity|]. unfold Otp.attempts_of. simpl. lia.
Qed.

Lemma advances_marked (m : Db.otp_row) (rows : list Db.otp_row) :
  Forall2 Life.advances rows (Otp.marked m rows).
Proof.
  unfold Otp.marked, Db.update_where. apply Forall2_map_self. intros x _.
  destruct (Db.satisfies _ x); [apply advances_flag | apply advances_refl].
Qed.

Lemma advances_invalidated (k : Otp.kind) (dest : jsstring)
    (rows : list Db.otp_row) :
  Forall2 Life.advances rows (Otp.invalidated k dest rows).
Proof.
  unfold Otp.invalidated, Db.update_where. apply Forall2_map_self.
  intros x _.
  destruct (Db.satisfies _ x); [apply advances_flag | apply advances_refl].
Qed.

Lemma advances_bumped (m : Db.otp_row) (rows : list Db.otp_row) :
  Otp.unique_ids rows -> In m rows ->
  Forall2 Life.advances rows (Otp.bumped m rows).
Proof.
  intros Hu Hm. unfold Otp.bumped, Db.update_where.
  apply Forall2_map_self. intros x Hx. rewrite satisfies_EqId.
  destruct (N.eqb (Db.id x) (Db.id m)) eqn:E; [|apply advances_refl].
  apply N.eqb_eq in E. rewrite (@unique_row rows x m Hu Hx Hm E).
  unfold Life.advances. split; [apply same_record_patch|].
  split; [auto|]. unfold Otp.attempts_of at 2. simpl. lia.
Qed.

Lemma Forall2_same (R : Db.otp_row -> Db.otp_row -> Prop)
    (l : list Db.otp_row) :
  (forall x, R x x) -> Forall2 R l l.
Proof. intros H. induction l; constructor; auto. Qed.

Lemma issue_rejected (cfg : config) (io : issue_io) (k : Otp.kind)
    (dest : jsstring) (w : world) :
  Otp.issuable cfg k dest = false -> snd (Otp.issue cfg io k dest w) = w.
Proof.
  unfold Otp.issuable, Otp.issue. destruct k; intros H.
  - unfold send_email_otp. destruct dest as [|x e]; [reflexivity|].
    rewrite H. reflexivity.
  - unfold send_phone_otp. destruct dest as [|x p]; [reflexivity|].
    simpl in H.
    destruct (twilioClient cfg), (truthy (twilioPhoneNumber cfg));
      try discriminate H; reflexivity.
Qed.

(** X5: no endpoint takes a verification back or lowers a counter.  In a
    table with unique ids, after a verification every record is in a later
    state of itself; after an issuance so is every record that was there,
    and the table has grown by at most the one new record. *)
Theorem records_only_advance :
  (forall (io : verify_io) (body : verify_body) (w : world),
      Otp.unique_ids (otp_codes w) ->
      Forall2 Life.advances (otp_codes w)
        (otp_codes (snd (verify_otp io body w))))
  /\ (forall (cfg : config) (io : issue_io) (k : Otp.kind)
             (dest : jsstring) (w : world),
         exists older added,
           otp_codes (snd (Otp.issue cfg io k dest w)) = older ++ added
           /\ Forall2 Life.advances (otp_codes w) older
           /\ (added = []
               \/ added = [Otp.issued_row k dest io (next_id w)])).
Proof.
  split.
  - intros io body w Hu.
    destruct (verify_otp_table io body w) as (_ & [->|(m & Hm & H)]).
    + apply Forall2_same, advances_refl.
    + destruct H as [->|(-> & _)];
        [apply advances_bumped; assumption | apply advances_marked].
  - intros cfg io k dest w.
    destruct (Otp.issuable cfg k dest) eqn:Hok.
    + rewrite (issue_table cfg io k dest w Hok). unfold Otp.issued.
      eexists. eexists. split; [reflexivity|]. split.
      * destruct (invalidate_ok io);
          [apply advances_invalidated | apply Forall2_same, advances_refl].
      * destruct (insert_ok io); auto.
    + rewrite issue_rejected by exact Hok.
      exists (otp_codes w), []. rewrite app_nil_r.
      split; [reflexivity|]. split; [|auto].
      apply Forall2_same, advances_refl.
Qed.

Lemma records_only_advance_witness :
  Forall2 Life.advances (otp_codes Sample.issued_once)
    (otp_codes (snd (verify_otp (Sample.checking 1000)
                       (Otp.request Otp.EMAIL Sample.alice (lit "123456")
                          None) Sample.issued_once))).
Proof.
  destruct records_only_advance as [H _]. apply H.
  unfold Otp.unique_ids. simpl. constructor; [intros [] | constructor].
Defined.

(** A record that is unverified with its attempts used up stays so
    through a verification. *)
Lemma verify_otp_keeps_locked (io : verify_io) (body : verify_body)
    (w : world) (i : N) :
  Otp.unique_ids (otp_codes w) -> Life.locked i w ->
  Life.locked i (snd (verify_otp io body w)).
Proof.
  intros Hu (x & Hx & Hi & Hv & He). unfold Life.locked.
  destruct (verify_otp_table io body w) as (_ & [E|(m & Hm & H)]).
  - exists x. rewrite E. auto.
  - destruct H as [E|(E & Hmv & Hme)]; rewrite E.
    + unfold Otp.bumped, Db.update_where.
      set (g := fun r : Db.otp_row =>
                  if Db.satisfies [Db.EqId (Db.id m)] r
                  then Db.apply_patch
                         (Db.SetAttempts (Otp.attempts_of m + 1)) r
                  else r).
      exists (g x). split; [apply in_map; exact Hx|].
      unfold g. rewrite satisfies_EqId.
      destruct (N.eqb (Db.id x) (Db.id m)) eqn:Eid; [|auto].
      apply N.eqb_eq in Eid.
      rewrite <- (@unique_row (otp_codes w) x m Hu Hx Hm Eid).
      split; [exact Hi|]. split; [exact Hv|].
      unfold attempts_exceeded, Otp.attempts_of in *. simpl.
      destruct (Db.attempts x) as [n|]; [|discriminate He].
      apply Z.leb_le in He. apply Z.leb_le. lia.
    + unfold Otp.marked, Db.update_where.
      exists x. split; [|auto].
      apply in_map_iff. exists x. split; [|exact Hx].
      rewrite satisfies_EqId.
      destruct (N.eqb (Db.id x) (Db.id m)) eqn:Eid; [|reflexivity].
      apply N.eqb_eq in Eid.
      rewrite (@unique_row (otp_codes w) x m Hu Hx Hm Eid) in He.
      congruence.
Qed.

(** X6: a record whose five attempts are used up cannot be verified any
    more: in a world reached by the endpoints, after any sequence of
    verification requests, with any codes and whatever the store answers,
    it is still unverified and still over the limit.  (Only a new issuance
    changes its flag.) *)
Theorem locked_record_stays_locked (calls : list (verify_io * verify_body))
    (w : world) (i : N) :
  Otp.well_formed w -> Life.locked i w ->
  Life.locked i (Life.verify_all calls w).
Proof.
  revert w. induction calls as [|[io body] calls IH]; intros w Hw Hl.
  - exact Hl.
  - simpl. apply IH.
    + apply verify_otp_well_formed. exact Hw.
    + apply verify_otp_keeps_locked; [apply Hw | exact Hl].
Qed.


Lemma locked_record_stays_locked_witness :
  Life.locked 1
    (Life.verify_all
       [(Sample.checking 8000,
         Otp.request Otp.EMAIL Sample.alice (lit "550000") None);
        (Sample.checking 9000,
         Otp.request Otp.EMAIL Sample.alice (lit "000009") None);
        (Sample.checking 9500,
         Otp.request Otp.EMAIL Sample.alice (lit "550000") None)]
       Sample.exhausted).
Proof.
  apply locked_record_stays_locked.
  - split.
    + unfold Otp.unique_ids. rewrite exhausted_table. simpl.
      constructor; [intros [] | constructor].
    + intros x Hx. rewrite exhausted_table in Hx.
      destruct Hx as [<-|[]]. reflexivity.
  - exists Sample.exhausted_record. rewrite exhausted_table.
    split; [left; reflexivity|]. split; [reflexivity|].
    split; reflexivity.
Defined.

End Advance.

(* ================================================================== *)
(** ** The generated code and the normalised number                    *)
(* ================================================================== *)

Section Helpers.
Import Js Server.










End Helpers.

(* ================================================================== *)
(** ** Requests and store failures                                     *)
(* ================================================================== *)

Section Requests.
Import Js Server.

Lemma count_at_none (s : jsstring) :
  forallb not_space_or_at s = true ->
  @count_occ char N.eq_dec s ch_at = 0%nat.
Proof.
  induction s as [|c s IH]; simpl; [reflexivity|].
  intros H. apply andb_true_iff in H as [Hc Hs].
  destruct (N.eq_dec c ch_at) as [->|_]; [discriminate Hc | auto].
Qed.

Lemma no_space_of_class (s : jsstring) :
  forallb not_space_or_at s = true ->
  forallb (fun c => negb (is_space c)) s = true.
Proof.
  induction s as [|c s IH]; simpl; [reflexivity|].
  intros H. apply andb_true_iff in H as [Hc Hs]. rewrite IH by exact Hs.
  unfold not_space_or_at in Hc. destruct (is_space c); [discriminate Hc|].
  reflexivity.
Qed.

(** X3: an email address that the endpoint accepts has exactly one [@],
    no white space and at least five characters; it does not start or end
    with [@], and there is a dot between the [@] and its last character. *)
Theorem accepted_email_shape (e : jsstring) :
  test emailRegex e = true ->
  count_occ N.eq_dec e ch_at = 1%nat
  /\ forallb (fun c => negb (is_space c)) e = true
  /\ (5 <= List.length e)%nat
  /\ exists (first last : char) (before after : jsstring),
      e = first :: before ++ [ch_at] ++ after ++ [last]
      /\ first <> ch_at /\ last <> ch_at /\ In ch_dot after.
Proof.
  intros H. apply emailRegex_pattern in H
    as (a & b & c & -> & Ha & Hb & Hc & Fa & Fb & Fc).
  split; [|split; [|split]].
  - rewrite !count_occ_app, (@count_at_none a Fa), (@count_at_none b Fb),
      (@count_at_none c Fc). reflexivity.
  - rewrite !forallb_app, (@no_space_of_class a Fa),
      (@no_space_of_class b Fb), (@no_space_of_class c Fc). reflexivity.
  - rewrite !length_app. simpl.
    destruct a; [congruence|]. destruct b; [congruence|].
    destruct c; [congruence|]. simpl. lia.
  - destruct a as [|first a]; [congruence|].
    destruct (exists_last Hc) as (c' & last & ->).
    exists first, last, a, (b ++ [ch_dot] ++ c').
    simpl in Fa. apply andb_true_iff in Fa as [Ff _].
    rewrite forallb_app in Fc. apply andb_true_iff in Fc as [_ Fl].
    simpl in Fl. rewrite andb_true_r in Fl.
    split; [simpl; rewrite <- !app_assoc; reflexivity|].
    split; [intros ->; discriminate Ff|].
    split; [intros ->; discriminate Fl|].
    apply in_or_app. right. left. reflexivity.
Qed.

Lemma accepted_email_shape_witness :
  count_occ N.eq_dec Sample.alice ch_at = 1%nat
  /\ (5 <= List.length Sample.alice)%nat.
Proof.
  destruct (accepted_email_shape Sample.alice eq_refl) as (H1 & _ & H3 & _).
  split; assumption.
Defined.

End Requests.

(* ================================================================== *)
(** ** Failures of the store and of the channels                       *)
(* ================================================================== *)

Section Failures.
Import Js Server.


(** The lookup part reads nothing of the world but the table. *)
Lemma find_and_verify_ext (io : verify_io) (type otp : jsstring)
    (dest : Db.cond) (w1 w2 : world) :
  otp_codes w1 = otp_codes w2 ->
  fst (find_and_verify io type otp dest w1)
  = fst (find_and_verify io type otp dest w2)
  /\ otp_codes (snd (find_and_verify io type otp dest w1))
     = otp_codes (snd (find_and_verify io type otp dest w2)).
Proof.
  intros E. unfold find_and_verify, bind, ret.
  rewrite !db_select_latest_eq, E.
  destruct (lookup_ok io); [|simpl; auto].
  destruct (Otp.latest _ (otp_codes w2)) as [|m rest].
  - cbv beta iota. rewrite !db_select_latest_eq. cbn [otp_codes emit].
    rewrite E. destruct (recent_ok io); [|simpl; auto].
    destruct (Otp.latest [Db.EqType type; Db.EqVerified false; dest]
                (otp_codes w2)) as [|r rest]; [simpl; auto|].
    cbv beta iota. rewrite !db_update_eq. cbn [otp_codes emit]. rewrite E.
    destruct (bump_ok io); simpl; auto.
  - cbv beta iota. destruct (attempts_exceeded (Db.attempts m));
      [simpl; auto|].
    rewrite !db_update_eq. cbn [otp_codes emit]. rewrite E.
    destruct (mark_ok io); simpl; auto.
Qed.

Lemma verify_otp_ext (io : verify_io) (body : verify_body) (w1 w2 : world) :
  otp_codes w1 = otp_codes w2 ->
  fst (verify_otp io body w1) = fst (verify_otp io body w2)
  /\ otp_codes (snd (verify_otp io body w1))
     = otp_codes (snd (verify_otp io body w2)).
Proof.
  intros E. unfold verify_otp.
  destruct (body_otp body) as [[|c code]|]; try solve [simpl; auto].
  destruct (body_type body) as [[|t ty]|]; try solve [simpl; auto].
  cbv zeta.
  destruct (str_eqb (t :: ty) (lit "email") && _); [simpl; auto|].
  destruct (str_eqb (t :: ty) (lit "phone") && _); [simpl; auto|].
  destruct (negb _ || negb _); [simpl; auto|].
  apply find_and_verify_ext. exact E.
Qed.

(** The answer "Failed to verify code" comes with an unchanged table. *)
Lemma find_and_verify_storage_error (io : verify_io) (type otp : jsstring)
    (dest : Db.cond) (w : world) :
  fst (find_and_verify io type otp dest w)
  = Http.fail 500 "Failed to verify code" ->
  otp_codes (snd (find_and_verify io type otp dest w)) = otp_codes w.
Proof.
  unfold find_and_verify, bind, ret. rewrite db_select_latest_eq.
  destruct (lookup_ok io); [|reflexivity].
  destruct (Otp.latest _ (otp_codes w)) as [|m rest].
  - cbv beta iota. rewrite db_select_latest_eq.
    destruct (recent_ok io); [|discriminate].
    destruct (Otp.latest _ _) as [|r rest]; [discriminate|].
    cbv beta iota. rewrite db_update_eq.
    destruct (bump_ok io); discriminate.
  - cbv beta iota. destruct (attempts_exceeded (Db.attempts m));
      [discriminate|].
    rewrite db_update_eq. destruct (mark_ok io); [discriminate|].
    reflexivity.
Qed.

(** X8: a verification that is answered "Failed to verify code" (the
    store failed at the lookup, or at the update that flags the record)
    has changed no record and counted no attempt; the same request sent
    again is answered as it would have been the first time. *)
Theorem storage_error_can_be_retried (io io' : verify_io)
    (body : verify_body) (w : world) :
  fst (verify_otp io body w) = Http.fail 500 "Failed to verify code" ->
  otp_codes (snd (verify_otp io body w)) = otp_codes w
  /\ fst (verify_otp io' body (snd (verify_otp io body w)))
     = fst (verify_otp io' body w)
  /\ otp_codes (snd (verify_otp io' body (snd (verify_otp io body w))))
     = otp_codes (snd (verify_otp io' body w)).
Proof.
  intros H.
  assert (E : otp_codes (snd (verify_otp io body w)) = otp_codes w).
  { revert H. unfold verify_otp.
    destruct (body_otp body) as [[|c code]|]; try discriminate.
    destruct (body_type body) as [[|t ty]|]; try discriminate.
    cbv zeta.
    destruct (str_eqb (t :: ty) (lit "email") && _); [discriminate|].
    destruct (str_eqb (t :: ty) (lit "phone") && _); [discriminate|].
    destruct (negb _ || negb _); [discriminate|].
    apply find_and_verify_storage_error. }
  split; [exact E|]. apply verify_otp_ext. exact E.
Qed.


Lemma storage_error_can_be_retried_witness :
  let failing := {| v_now := 1000; lookup_ok := true; recent_ok := true;
                    bump_ok := true; mark_ok := false |} in
  let body := Otp.request Otp.EMAIL Sample.alice (lit "550000") None in
  otp_codes (snd (verify_otp failing body Sample.issued_once))
  = otp_codes Sample.issued_once
  /\ fst (verify_otp (Sample.checking 2000) body
            (snd (verify_otp failing body Sample.issued_once)))
     = fst (verify_otp (Sample.checking 2000) body Sample.issued_once).
Proof.
  intros failing body.
  destruct (@storage_error_can_be_retried failing (Sample.checking 2000)
              body Sample.issued_once eq_refl) as (H1 & H2 & _).
  split; assumption.
Defined.

End Failures.

(* ================================================================== *)
(** ** Issuances that fail                                             *)
(* ================================================================== *)

Section IssueFailures.
Import Js Server.

(** X9: when the insert of the new code fails, the issuance is answered
    "Failed to generate verification code" and nothing is dispatched, but
    the update that retires the older codes has already been sent and is
    not undone: if it went through, no code verifies for the destination
    any more, although no new code exists. *)
Theorem failed_insert_leaves_codes_retired (cfg : config) (io : issue_io)
    (k : Otp.kind) (dest : jsstring) (other : option jsstring) (w : world) :
  Otp.issuable cfg k dest = true ->
  insert_ok io = false ->
  let result := Otp.issue cfg io k dest w in
  fst result = Http.fail 500 "Failed to generate verification code"
  /\ (exists v,
         trace (snd result)
         = trace w ++ [DbUpdate (Otp.invalidation_query k dest)
                         (Db.SetVerified true); DbInsert v])
  /\ otp_codes (snd result)
     = (if invalidate_ok io then Otp.invalidated k dest (otp_codes w)
        else otp_codes w)
  /\ (invalidate_ok io = true ->
      forall (vio : verify_io) (code : jsstring),
        Otp.six_digits code = true -> lookup_ok vio = true ->
        fst (Otp.verify vio k dest code other (snd result))
        = Otp.InvalidOrExpired).
Proof.
  intros Hok Hins result.
  pose proof (@issuable_nonempty cfg k dest Hok) as Hd.
  assert (Htab : otp_codes (snd result)
                 = (if invalidate_ok io
                    then Otp.invalidated k dest (otp_codes w)
                    else otp_codes w)).
  { unfold result. rewrite (issue_table cfg io k dest w Hok).
    unfold Otp.issued. rewrite Hins. apply app_nil_r. }
  assert (Hrun : fst result
                 = Http.fail 500 "Failed to generate verification code"
                 /\ exists v,
                     trace (snd result)
                     = trace w ++ [DbUpdate (Otp.invalidation_query k dest)
                                     (Db.SetVerified true); DbInsert v]).
  { subst result. unfold Otp.issue, Otp.issuable in *. destruct k.
    - unfold send_email_otp. destruct dest as [|x e]; [discriminate|].
      rewrite Hok. run. rewrite Hins. simpl negb. cbv iota.
      destruct (invalidate_ok io); simpl; rewrite <- app_assoc;
        (split; [reflexivity | eexists; reflexivity]).
    - unfold send_phone_otp. destruct dest as [|x p]; [discriminate|].
      simpl in Hok. apply andb_true_iff in Hok as [H1 H2]. rewrite H1, H2.
      run. rewrite Hins. simpl negb. simpl orb. cbv iota.
      destruct (invalidate_ok io); simpl; rewrite <- app_assoc;
        (split; [reflexivity | eexists; reflexivity]). }
  destruct Hrun as (Hresp & Htrace).
  split; [exact Hresp|]. split; [exact Htrace|]. split; [exact Htab|].
  intros Hinv vio code Hc Hl.
  apply dead_code_rejected; try assumption.
  intros x Hx Hfor _. left. rewrite Htab, Hinv in Hx.
  apply (invalidated_verified _ _ _ _ Hx Hfor).
Qed.

Lemma failed_insert_leaves_codes_retired_witness :
  let failing := {| now := 1000; random := 1#4; invalidate_ok := true;
                    insert_ok := false; db_clock := 1000; mail_ok := true;
                    sms_error := None |} in
  fst (Otp.verify (Sample.checking 2000) Otp.EMAIL Sample.alice
         (lit "550000") None
         (snd (Otp.issue Sample.development failing Otp.EMAIL Sample.alice
                 Sample.issued_once)))
  = Otp.InvalidOrExpired.
Proof.
  intros failing.
  destruct (@failed_insert_leaves_codes_retired Sample.development failing
              Otp.EMAIL Sample.alice None Sample.issued_once eq_refl
              eq_refl) as (_ & _ & _ & H).
  apply H; reflexivity.
Defined.

(** X10: when the email cannot be sent (no SendGrid key, or the request
    fails) the new record is inserted all the same.  In production the
    issuance is then answered with an error; in any other mode it is
    answered as a success, and outside development that answer does not
    carry the code either. *)
Theorem unsent_email_by_mode (cfg : config) (io : issue_io) (e : jsstring)
    (w : world) :
  test emailRegex e = true ->
  insert_ok io = true ->
  truthy (sendGridApiKey cfg) = false \/ mail_ok io = false ->
  let result := Otp.issue cfg io Otp.EMAIL e w in
  otp_codes (snd result)
  = (if invalidate_ok io then Otp.invalidated Otp.EMAIL e (otp_codes w)
     else otp_codes w)
    ++ [Otp.issued_row Otp.EMAIL e io (next_id w)]
  /\ (env_is cfg "production" = true ->
      fst result
      = Http.fail 500
          (if truthy (sendGridApiKey cfg)
           then "Failed to send verification email. Please try again later."
           else "Email service not configured"))
  /\ (env_is cfg "production" = false ->
      fst result
      = Http.sent "Verification code sent to your email"
          (if env_is cfg "development"
           then Some (generateOTP (random io)) else None)).
Proof.
  intros He Hins Hfail result.
  split.
  - unfold result. rewrite (issue_table cfg io Otp.EMAIL e w He).
    unfold Otp.issued. rewrite Hins. reflexivity.
  - subst result. unfold Otp.issue, send_email_otp.
    destruct e as [|x e]; [discriminate He|]. rewrite He.
    run. rewrite Hins. simpl negb. cbv iota.
    destruct (truthy (sendGridApiKey cfg)) eqn:Hkey.
    + destruct Hfail as [Hfail|Hfail]; [discriminate Hfail|].
      rewrite Hfail.
      split; intros ->; destruct (invalidate_ok io); reflexivity.
    + split; intros ->; destruct (invalidate_ok io); reflexivity.
Qed.

Lemma unsent_email_by_mode_witness :
  let unset := {| NODE_ENV := None; sendGridApiKey := None;
                  twilioClient := false; twilioPhoneNumber := None |} in
  fst (Otp.issue unset (Sample.at_time 0 (1#2)) Otp.EMAIL Sample.alice
         Sample.empty)
  = Http.sent "Verification code sent to your email" None.
Proof.
  intros unset.
  destruct (@unsent_email_by_mode unset (Sample.at_time 0 (1#2))
              Sample.alice Sample.empty eq_refl eq_refl (or_introl eq_refl))
    as (_ & _ & H).
  apply H. reflexivity.
Defined.

(** X11: [send-phone-otp] checks the phone number first and the SMS
    settings second, and both before anything else: without a phone number
    the answer is "Phone number is required", with one but without a Twilio
    client or sender number it is "SMS service not configured", and in both
    cases no statement is sent and no message dispatched. *)
Theorem sms_settings_checked_before_store (cfg : config) (io : issue_io)
    (phone : option jsstring) (w : world) :
  (truthy phone = false ->
   send_phone_otp cfg io phone w
   = (Http.fail 400 "Phone number is required", w))
  /\ (truthy phone = true ->
      twilioClient cfg = false \/ truthy (twilioPhoneNumber cfg) = false ->
      send_phone_otp cfg io phone w
      = (Http.fail 500
           "SMS service not configured. Please contact support.", w)).
Proof.
  unfold send_phone_otp. split.
  - destruct phone as [[|x p]|]; try discriminate; reflexivity.
  - destruct phone as [[|x p]|]; try discriminate. intros _ H.
    destruct (twilioClient cfg), (truthy (twilioPhoneNumber cfg));
      try reflexivity.
    destruct H; discriminate.
Qed.

Lemma sms_settings_checked_before_store_witness :
  let unset := {| NODE_ENV := None; sendGridApiKey := None;
                  twilioClient := false; twilioPhoneNumber := None |} in
  send_phone_otp unset (Sample.at_time 0 (1#2)) (Some Sample.mobile)
    Sample.empty
  = (Http.fail 500 "SMS service not configured. Please contact support.",
     Sample.empty).
Proof.
  intros unset.
  destruct (sms_settings_checked_before_store unset (Sample.at_time 0 (1#2))
              (Some Sample.mobile) Sample.empty) as [_ H].
  apply H; [reflexivity | left; reflexivity].
Defined.

End IssueFailures.

(* ================================================================== *)
(** ** Destinations do not disturb each other                          *)
(* ================================================================== *)

Section Destinations.
Import Js Server.







End Destinations.

(* ================================================================== *)
(** ** [parseFloat] and the minimum amount                             *)
(* ================================================================== *)

Section Amounts.
Import Js Json Accounts.
Local Open Scope string_scope.
Local Open Scope list_scope.

Lemma span_digits_app (d : jsstring) (c : char) (rest : jsstring) :
  forallb is_digit d = true -> is_digit c = false ->
  span_digits (d ++ c :: rest) = (d, c :: rest).
Proof.
  intros Hd Hc. induction d as [|x d IH]; simpl.
  - rewrite Hc. reflexivity.
  - simpl in Hd. apply andb_true_iff in Hd. destruct Hd as [Hx Hd].
    rewrite Hx, (IH Hd). reflexivity.
Qed.

Lemma digit_not_space (c : char) : is_digit c = true -> is_space c = false.
Proof.
  unfold is_digit, is_space. intros H. apply andb_true_iff in H.
  destruct H as [H1 H2]. apply N.leb_le in H1. apply N.leb_le in H2.
  repeat match goal with
         | |- context [(?a <=? ?b)%N] =>
             destruct (N.leb_spec a b); try lia
         | |- context [(?a =? ?b)%N] =>
             destruct (N.eqb_spec a b); try lia
         end; reflexivity.
Qed.

(** A string whose first character after the white space cannot start a
    number reads as [NaN]. *)
Lemma parseFloat_string_NaN (s : jsstring) (c : char) (r : jsstring) :
  trim_start s = c :: r -> is_digit c = false ->
  c <> ch_plus -> c <> ch_minus -> c <> ch_dot -> c <> 73%N ->
  parseFloat_string s = NaN.
Proof.
  intros E Hd Hp Hm Hdot HI. unfold parseFloat_string. rewrite E.
  destruct (N.eqb_spec c ch_plus) as [|_]; [contradiction|].
  destruct (N.eqb_spec c ch_minus) as [|_]; [contradiction|].
  unfold parse_unsigned.
  assert (Hs : startsWith (c :: r) (lit "Infinity") = false).
  { simpl. destruct (N.eqb_spec c 73) as [|_]; [contradiction|]. reflexivity. }
  rewrite Hs. simpl span_digits. rewrite Hd.
  destruct (N.eqb_spec c ch_dot) as [|_]; [contradiction|]. reflexivity.
Qed.

(** Digits followed by a character that continues no number read as the
    digits alone. *)
Lemma parseFloat_string_digits (d : jsstring) (c : char) (rest : jsstring) :
  d <> [] -> forallb is_digit d = true -> is_digit c = false ->
  c <> ch_dot -> c <> 101%N -> c <> 69%N ->
  exists q, parseFloat_string (d ++ c :: rest) = Fin q
            /\ (q == digits_value d # 1)%Q.
Proof.
  intros Hne Hd Hc Hdot He HE.
  destruct d as [|x d]; [contradiction|]. clear Hne.
  assert (Hx : is_digit x = true).
  { simpl in Hd. apply andb_true_iff in Hd. tauto. }
  unfold parseFloat_string.
  change ((x :: d) ++ c :: rest) with (x :: (d ++ c :: rest)).
  cbn [trim_start]. rewrite (digit_not_space x Hx).
  assert (Hx' : (48 <= x <= 57)%N).
  { unfold is_digit in Hx. apply andb_true_iff in Hx. destruct Hx as [A B].
    apply N.leb_le in A. apply N.leb_le in B. lia. }
  destruct (N.eqb_spec x ch_plus) as [e|_]; [unfold ch_plus in e; lia|].
  destruct (N.eqb_spec x ch_minus) as [e|_]; [unfold ch_minus in e; lia|].
  unfold parse_unsigned.
  assert (Hs : startsWith (x :: d ++ c :: rest) (lit "Infinity") = false).
  { simpl. destruct (N.eqb_spec x 73) as [e|_]; [lia|]. reflexivity. }
  rewrite Hs.
  change (x :: d ++ c :: rest) with ((x :: d) ++ c :: rest).
  rewrite (span_digits_app (x :: d) c rest Hd Hc).
  destruct (N.eqb_spec c ch_dot) as [|_]; [contradiction|].
  eexists. split; [reflexivity|].
  unfold exponent.
  destruct (N.eqb_spec c 101) as [|_]; [contradiction|].
  destruct (N.eqb_spec c 69) as [|_]; [contradiction|].
  simpl orb. cbv iota. simpl Qpower.
  unfold Qeq, Qmult, Qplus. cbn [Qnum Qden List.length Pos.of_nat].
  change (digits_value []) with 0%Z.
  change (Z.pos (10 ^ 1)) with 10%Z.
  change (Z.pos (1 * 10 ^ 1 * 1)) with 10%Z.
  lia.
Qed.

Lemma lt_Fin_proper (q q' : Q) (m : Q) :
  (q == q')%Q -> lt (Fin q) (Fin m) = lt (Fin q') (Fin m).
Proof.
  intros E. unfold lt. f_equal.
  destruct (Qle_bool m q) eqn:A, (Qle_bool m q') eqn:B; try reflexivity.
  - apply Qle_bool_iff in A. rewrite E in A. apply Qle_bool_iff in A.
    congruence.
  - apply Qle_bool_iff in B. rewrite <- E in B. apply Qle_bool_iff in B.
    congruence.
Qed.

Lemma lt_integer (z m : Z) : lt (Fin (z # 1)) (Fin (m # 1)) = (z <? m)%Z.
Proof.
  unfold lt, Qle_bool. cbn [Qnum Qden].
  destruct (Z.leb_spec (m * 1) (z * 1)), (Z.ltb_spec z m);
    try reflexivity; lia.
Qed.

(** X14: an amount in which [parseFloat] finds no number is not below the
    minimum: when the first character of the amount after leading white
    space is no digit, sign, dot or [I], a body that has the required
    fields and the two flags passes all the checks, and the user row that
    is inserted holds [NaN] as its amount. *)
Theorem amount_without_number_passes_minimum
  (io : signup_io) (b : signup_body) (s : jsstring) (c : char)
  (r : jsstring) :
  investmentAmount b = VStr s -> trim_start s = c :: r ->
  is_digit c = false ->
  c <> ch_plus -> c <> ch_minus -> c <> ch_dot -> c <> 73%N ->
  missing_required b = false ->
  truthy (emailVerified b) = true -> truthy (phoneVerified b) = true ->
  acceptable b = true
  /\ (forall row, In (InsertSingle "users" row) (snd (signup io b)) ->
                  get "investment_amount" row = VNum NaN).
Proof.
  intros Ea Et Hd Hp Hm Hdot HI Hreq Hev Hpv.
  assert (Hn : parseFloat (investmentAmount b) = NaN).
  { rewrite Ea. simpl. eapply parseFloat_string_NaN; eauto. }
  assert (Hacc : acceptable b = true).
  { unfold acceptable. rewrite Hreq, Hev, Hpv, Hn. reflexivity. }
  split; [exact Hacc|].
  intros row Hin. unfold signup in Hin. unfold acceptable in Hacc.
  rewrite Hreq, Hev, Hpv, Hn in Hin. simpl in Hin.
  unfold register in Hin.
  assert (Hrow : get "investment_amount" (user_row io b) = VNum NaN).
  { unfold user_row. simpl. rewrite Hn. reflexivity. }
  destruct (existingUser io), (truthy (partnerId b)), (partnerError io),
    (partner io) as [p|], (existingMT5 io), (userInsert io),
    (mt5Insert io);
    try destruct (is_str (get "status" p) (lit "active"));
    simpl in Hin;
    repeat match goal with
           | H : _ \/ _ |- _ => destruct H
           | H : False |- _ => contradiction
           | H : InsertSingle _ _ = InsertSingle _ _ |- _ =>
               inversion H; subst; clear H
           | H : _ = InsertSingle _ _ |- _ => discriminate H
           end; exact Hrow.
Qed.

Lemma amount_without_number_passes_minimum_witness :
  acceptable (Applicant.body (VStr (lit "abc"))) = true
  /\ (forall row,
        In (InsertSingle "users" row)
           (snd (signup Applicant.store_ok
                   (Applicant.body (VStr (lit "abc"))))) ->
        get "investment_amount" row = VNum NaN).
Proof.
  apply (@amount_without_number_passes_minimum Applicant.store_ok
           (Applicant.body (VStr (lit "abc"))) (lit "abc") 97%N
           (lit "bc")); try reflexivity; discriminate.
Defined.

(** X15: the minimum is checked on the leading digits only.  When the
    amount is a string of digits followed by a character that is no digit,
    dot or exponent mark (a thousands separator, a unit), what follows the
    digits is ignored: a body with the required fields and the two flags
    passes the checks exactly when the leading digits read 100000 or
    more. *)
Theorem amount_is_read_up_to_separator
  (b : signup_body) (d : jsstring) (c : char) (rest : jsstring) :
  investmentAmount b = VStr (d ++ c :: rest) ->
  d <> [] -> forallb is_digit d = true -> is_digit c = false ->
  c <> ch_dot -> c <> 101%N -> c <> 69%N ->
  missing_required b = false ->
  truthy (emailVerified b) = true -> truthy (phoneVerified b) = true ->
  acceptable b = (100000 <=? digits_value d)%Z.
Proof.
  intros Ea Hne Hd Hc Hdot He HE Hreq Hev Hpv.
  destruct (parseFloat_string_digits rest Hne Hd Hc Hdot He HE)
    as [q [Eq Hq]].
  unfold acceptable. rewrite Hreq, Hev, Hpv, Ea. simpl parseFloat.
  rewrite Eq. rewrite (lt_Fin_proper (100000) Hq).
  change (Fin 100000) with (Fin (100000 # 1)).
  rewrite lt_integer. simpl.
  destruct (Z.ltb_spec (digits_value d) 100000),
    (Z.leb_spec 100000 (digits_value d)); try reflexivity; lia.
Qed.

Lemma amount_is_read_up_to_separator_witness :
  acceptable (Applicant.body (VStr (lit "100,000"))) = false.
Proof.
  apply (@amount_is_read_up_to_separator
           (Applicant.body (VStr (lit "100,000"))) (lit "100") 44%N
           (lit "000")); try reflexivity; discriminate.
Defined.

End Amounts.

(* ================================================================== *)
(** ** Sign-up                                                         *)
(* ================================================================== *)

Section Signup.
Import Js Json Accounts.
Local Open Scope string_scope.
Local Open Scope list_scope.

Lemma signup_acceptable (io : signup_io) (b : signup_body) :
  acceptable b = true -> signup io b = register io b.
Proof.
  unfold acceptable, signup. intros H.
  apply andb_true_iff in H. destruct H as [H Hmin].
  apply andb_true_iff in H. destruct H as [Hreq H].
  apply andb_true_iff in H. destruct H as [Hev Hpv].
  apply negb_true_iff in Hreq. apply negb_true_iff in Hmin.
  rewrite Hreq, Hev, Hpv, Hmin. reflexivity.
Qed.

Lemma signup_rejected (io : signup_io) (b : signup_body) :
  acceptable b = false ->
  snd (signup io b) = [] /\ status (fst (signup io b)) = 400
  /\ success (fst (signup io b)) = false /\ data (fst (signup io b)) = None.
Proof.
  unfold acceptable, signup. intros H.
  destruct (missing_required b); [simpl; auto|].
  destruct (truthy (emailVerified b)); [|simpl; auto].
  destruct (truthy (phoneVerified b)); [|simpl; auto].
  destruct (lt (parseFloat (investmentAmount b)) (Fin 100000));
    [simpl; auto|discriminate H].
Qed.

(** Splits [register] on every answer of the store. *)
Ltac answers io b :=
  unfold register;
  destruct (existingUser io) as [eu|] eqn:Eeu;
  destruct (truthy (partnerId b)) eqn:Epid;
  destruct (partnerError io) eqn:Eperr;
  destruct (partner io) as [p|] eqn:Ep;
  try destruct (is_str (get "status" p) (lit "active")) eqn:Eact;
  destruct (existingMT5 io) as [em|] eqn:Eem;
  destruct (userInsert io) as [u|umsg] eqn:Eu;
  destruct (mt5Insert io) as [m|mmsg] eqn:Em;
  cbn [negb fst snd app].



Lemma or_else_null (v : value) : null_or_truthy (or_else v VNull).
Proof.
  unfold null_or_truthy, or_else. destruct (truthy v) eqn:E; auto.
Qed.



(** X17: what a sign-up writes.  The statements that change the store are
    none, or the insert of the user alone when that insert is reported
    failed, or the insert of the user and of the MT5 login; when the
    insert of the login is reported failed a delete of the user just
    stored, by its id, follows and the answer is 500.  The answer is 201
    exactly in the case of two inserts and no delete, and carries the ids
    the store returned. *)
Theorem signup_writes (io : signup_io) (b : signup_body) :
  let r := fst (signup io b) in
  let ws := writes_of (snd (signup io b)) in
  let ins_user := InsertSingle "users" (user_row io b) in
  (ws = [] /\ (status r = 400 \/ status r = 409))
  \/ (exists msg,
        userInsert io = inr msg /\ ws = [ins_user]
        /\ r = fail_details 500 "Failed to create user account" msg)
  \/ (exists u msg,
        userInsert io = inl u /\ mt5Insert io = inr msg
        /\ ws = [ins_user; InsertSingle "mt5_logins" (mt5_row io b u);
                 Delete "users" [("id", get "id" u)]]
        /\ r = fail_details 500 "Failed to create MT5 login" msg)
  \/ (exists u m,
        userInsert io = inl u /\ mt5Insert io = inl m
        /\ ws = [ins_user; InsertSingle "mt5_logins" (mt5_row io b u)]
        /\ status r = 201 /\ success r = true
        /\ data r = Some [("id", get "id" u); ("email", get "email" u);
                          ("fullName", get "full_name" u);
                          ("mt5LoginId", get "id" m)]).
Proof.
  cbv zeta. destruct (acceptable b) eqn:Hacc.
  2:{ destruct (@signup_rejected io b Hacc) as [E [S _]].
      left. rewrite E, S. auto. }
  rewrite (@signup_acceptable io b Hacc).
  answers io b; unfold writes_of; cbn [filter writes];
    try solve [left; simpl; auto];
    try solve [right; left; eexists; repeat split];
    try solve [right; right; left; do 2 eexists; repeat split];
    try solve [right; right; right; do 2 eexists; repeat split].
Qed.

(** X18: the sign-up takes the verification flags on trust.  None of its
    statements addresses the [otp_codes] table, and the flags are only
    tested for truthiness: a request answers the same with any two truthy
    values, such as the string ["false"], as with [true]. *)
Theorem signup_takes_the_flags_on_trust
  (io : signup_io) (b : signup_body) (ev pv : value) :
  truthy ev = true -> truthy pv = true ->
  Forall (fun q => table_of q <> "otp_codes")
    (snd (signup io (with_flags ev pv b)))
  /\ fst (signup io (with_flags ev pv b))
     = fst (signup io (with_flags (VBool true) (VBool true) b)).
Proof.
  intros Hev Hpv. split.
  - destruct (acceptable (with_flags ev pv b)) eqn:Hacc.
    2:{ destruct (@signup_rejected io (with_flags ev pv b) Hacc) as [E _].
        rewrite E. constructor. }
    rewrite (@signup_acceptable io (with_flags ev pv b) Hacc).
    answers io (with_flags ev pv b);
      repeat (constructor; [simpl; discriminate|]); constructor.
  - unfold signup.
    change (missing_required (with_flags ev pv b))
      with (missing_required b).
    change (missing_required (with_flags (VBool true) (VBool true) b))
      with (missing_required b).
    cbn [emailVerified phoneVerified investmentAmount with_flags truthy].
    rewrite Hev, Hpv.
    destruct (missing_required b); [reflexivity|]. cbn [negb orb].
    destruct (lt (parseFloat (investmentAmount b)) (Fin 100000));
      [reflexivity|].
    unfold register.
    cbn [partnerId with_flags].
    destruct (existingUser io), (truthy (partnerId b)), (partnerError io),
      (partner io) as [p|], (existingMT5 io), (userInsert io),
      (mt5Insert io);
      try destruct (is_str (get "status" p) (lit "active"));
      reflexivity.
Qed.

Lemma signup_takes_the_flags_on_trust_witness :
  Forall (fun q => table_of q <> "otp_codes")
    (snd (signup Applicant.store_ok
            (with_flags (VStr (lit "false")) (VNum (Fin 1))
               (Applicant.body (VNum (Fin 250000))))))
  /\ fst (signup Applicant.store_ok
            (with_flags (VStr (lit "false")) (VNum (Fin 1))
               (Applicant.body (VNum (Fin 250000)))))
     = fst (signup Applicant.store_ok
              (with_flags (VBool true) (VBool true)
                 (Applicant.body (VNum (Fin 250000))))).
Proof.
  apply (@signup_takes_the_flags_on_trust Applicant.store_ok
           (Applicant.body (VNum (Fin 250000))) (VStr (lit "false"))
           (VNum (Fin 1))); reflexivity.
Defined.

End Signup.

(* ================================================================== *)
(** ** Partners and MT5 logins                                         *)
(* ================================================================== *)

Section Management.
Import Js Json Accounts.
Local Open Scope string_scope.
Local Open Scope list_scope.

(** X19: a partner is stored at most once per request and never without
    the defaults.  Nothing is written when the name or the email is
    missing (400) or when the lookup by email found a partner (409);
    otherwise the one write is the insert of a row with a truthy name and
    email and status active, whose phone, company name and notes are the
    given values or [NULL], and whose commission rate is the given rate or
    0; the answer is then 201 with the stored row, or 500 with the
    message of the store. *)
Theorem partner_stored_once_with_defaults
  (io : partner_io) (b : partner_body) :
  let r := fst (create_partner io b) in
  let ws := writes_of (snd (create_partner io b)) in
  (ws = [] /\ (status r = 400
               \/ status r = 409 /\ existingPartner io <> None))
  \/ (exists row,
        ws = [InsertSingle "partners" row]
        /\ existingPartner io = None
        /\ get "name" row = p_name b /\ truthy (p_name b) = true
        /\ get "email" row = p_email b /\ truthy (p_email b) = true
        /\ get "status" row = VStr (lit "active")
        /\ null_or_truthy (get "phone" row)
        /\ null_or_truthy (get "company_name" row)
        /\ null_or_truthy (get "notes" row)
        /\ (get "commission_rate" row = VNum (Fin 0)
            \/ get "commission_rate" row = p_commissionRate b
               /\ truthy (p_commissionRate b) = true)
        /\ ((exists stored, partnerInsert io = inl stored
                            /\ status r = 201 /\ data r = Some stored)
            \/ (exists msg, partnerInsert io = inr msg
                  /\ r = fail_details 500 "Failed to create partner" msg))).
Proof.
  cbv zeta. unfold create_partner.
  destruct (truthy (p_name b)) eqn:Hn; [|left; simpl; auto].
  destruct (truthy (p_email b)) eqn:He; [|left; simpl; auto].
  cbn [negb orb].
  destruct (existingPartner io) as [ep|] eqn:Hep.
  { left. simpl. split; [reflexivity|]. right. split; [reflexivity|].
    discriminate. }
  right. exists (partner_row b).
  assert (Hc : get "commission_rate" (partner_row b) = VNum (Fin 0)
               \/ get "commission_rate" (partner_row b) = p_commissionRate b
                  /\ truthy (p_commissionRate b) = true).
  { change (get "commission_rate" (partner_row b))
      with (or_else (p_commissionRate b) (VNum (Fin 0))).
    unfold or_else. destruct (truthy (p_commissionRate b)); auto. }
  destruct (partnerInsert io) as [stored|msg] eqn:Hins; cbn [fst snd];
    unfold writes_of; cbn [filter writes];
    (split; [reflexivity|]); (split; [reflexivity|]);
    (split; [reflexivity|]); (split; [reflexivity|]);
    (split; [reflexivity|]); (split; [reflexivity|]);
    (split; [reflexivity|]);
    (split; [apply (or_else_null (p_phone b))|]);
    (split; [apply (or_else_null (p_companyName b))|]);
    (split; [apply (or_else_null (p_notes b))|]);
    (split; [exact Hc|]).
  - left. exists stored. auto.
  - right. exists msg. auto.
Qed.

(** X20: adding a login never restores the primary mark.  Nothing is
    written when a field is missing (400), the user is unknown (404) or
    the login exists (409).  Otherwise the insert of the login is the last
    write; it is preceded by the update that takes the primary mark from
    the user's logins exactly when [isPrimary] is truthy, also when the
    insert is then reported failed and the answer is 500.  The row stores
    [isPrimary] as it was sent when truthy, and [false] otherwise. *)
Theorem primary_mark_is_not_restored
  (io : mt5_io) (userId : jsstring) (b : mt5_body) :
  let r := fst (add_mt5_login io userId b) in
  let ws := writes_of (snd (add_mt5_login io userId b)) in
  let ins := InsertSingle "mt5_logins" (login_row userId b) in
  (ws = [] /\ (status r = 400 \/ status r = 404 \/ status r = 409))
  \/ ((truthy (isPrimary b) = false /\ ws = [ins]
        /\ get "is_primary" (login_row userId b) = VBool false
        \/ truthy (isPrimary b) = true /\ ws = [unset_primary userId; ins]
           /\ get "is_primary" (login_row userId b) = isPrimary b)
       /\ ((exists stored, loginInsert io = inl stored
                           /\ status r = 201 /\ data r = Some stored)
           \/ (exists msg, loginInsert io = inr msg
                 /\ r = fail_details 500 "Failed to create MT5 login"
                          msg))).
Proof.
  cbv zeta. unfold add_mt5_login.
  destruct (truthy (login b)); [|left; simpl; auto].
  destruct (truthy (password b)); [|left; simpl; auto].
  destruct (truthy (server b)); [|left; simpl; auto].
  cbn [negb orb].
  destruct (user io) as [u|]; [|left; simpl; auto].
  destruct (existingLogin io) as [el|]; [left; simpl; auto 6|].
  right.
  assert (Hrow : get "is_primary" (login_row userId b)
                 = or_else (isPrimary b) (VBool false)) by reflexivity.
  rewrite Hrow. unfold or_else.
  destruct (truthy (isPrimary b)) eqn:Hp;
    destruct (loginInsert io) as [stored|msg] eqn:Hins; cbn [fst snd app];
    unfold writes_of; cbn [filter writes unset_primary]; split;
    try (left; repeat split; reflexivity);
    try (right; repeat split; reflexivity);
    try (left; exists stored; repeat split; reflexivity);
    try (right; exists msg; repeat split; reflexivity).
Qed.

End Management.
